(** * Polycom connection hub: HTTPServer pumps, registration, and Config.Load

    A shallow embedding of [nettools/HTTPServer/HTTPServer.go] and
    [Config/config.go].  Goroutines, channels and the websocket transport are
    represented by explicit traces of the effects each function performs, in
    program order; what the environment does (frames arriving, timers firing,
    producers enqueuing) is an explicit input. *)

From Stdlib Require Import ZArith Strings.Byte Strings.Ascii.
From stdpp Require Import gmap strings list.

Open Scope Z_scope.

(** ** Bytes *)

Abbreviation bytes := (list byte).

#[global] Instance byte_eq_decision : EqDecision byte := byte_eq_dec.

(** [[]byte(s)] for a string literal. *)
Definition bytes_of_string (s : string) : bytes := String.list_byte_of_string s.

(** ** Package [bytes] of the Go library, as far as [Reader] uses it *)

Module Bytes.

(** [bytes.HasPrefix(s, prefix)]. *)
Fixpoint HasPrefix (s prefix : bytes) {struct prefix} : bool :=
  match prefix, s with
  | [], _ => true
  | p :: prefix', c :: s' => bool_decide (c = p) && HasPrefix s' prefix'
  | _ :: _, [] => false
  end.

(** The copying loop of [bytes.Replace(s, old, new, n)] for a non-empty
    [old]: matches are taken leftmost first and do not overlap.  [skip]
    counts the bytes of the current match that are still to be passed over;
    [n] is the number of replacements still allowed, a negative [n] meaning
    no limit. *)
Fixpoint replace_from (old new : bytes) (n : Z) (skip : nat) (s : bytes) : bytes :=
  match s with
  | [] => []
  | c :: t =>
      match skip with
      | S k => replace_from old new n k t
      | O =>
          if negb (n =? 0) && HasPrefix s old
          then new ++ replace_from old new (n - 1) (Nat.pred (length old)) t
          else c :: replace_from old new n O t
      end
  end.

Definition Replace (s old new : bytes) (n : Z) : bytes :=
  replace_from old new n O s.

(** [asciiSpace]: the six ASCII white space bytes
    ['\t'], ['\n'], ['\v'], ['\f'], ['\r'], [' ']. *)
Definition asciiSpace (c : byte) : bool :=
  bool_decide (c = x09) || bool_decide (c = x0a) || bool_decide (c = x0b)
  || bool_decide (c = x0c) || bool_decide (c = x0d) || bool_decide (c = x20).

(** The other code points with the Unicode White_Space property, as
    [unicode.IsSpace] accepts them, in their UTF-8 encoding:
    U+0085, U+00A0 (two bytes) and U+1680, U+2000..U+200A, U+2028, U+2029,
    U+202F, U+205F, U+3000 (three bytes).  A byte sequence decodes to one of
    these runes exactly when it is that rune's encoding; anything else
    (another rune, or an invalid sequence, which decodes to U+FFFD) is not
    white space. *)
Definition space2 (b1 b2 : byte) : bool :=
  bool_decide (b1 = xc2) && (bool_decide (b2 = x85) || bool_decide (b2 = xa0)).

Definition space3 (b1 b2 b3 : byte) : bool :=
  (bool_decide (b1 = xe1) && bool_decide (b2 = x9a) && bool_decide (b3 = x80))
  || (bool_decide (b1 = xe2) && bool_decide (b2 = x80)
      && ((Byte.to_N b3 <=? 138)%N && (128 <=? Byte.to_N b3)%N
          || bool_decide (b3 = xa8) || bool_decide (b3 = xa9)
          || bool_decide (b3 = xaf)))
  || (bool_decide (b1 = xe2) && bool_decide (b2 = x81) && bool_decide (b3 = x9f))
  || (bool_decide (b1 = xe3) && bool_decide (b2 = x80) && bool_decide (b3 = x80)).

(** [bytes.TrimLeftFunc(s, unicode.IsSpace)]: slice off leading white space
    runes. *)
Fixpoint TrimLeftSpace (s : bytes) : bytes :=
  match s with
  | [] => []
  | b1 :: t1 =>
      if asciiSpace b1 then TrimLeftSpace t1
      else match t1 with
           | [] => s
           | b2 :: t2 =>
               if space2 b1 b2 then TrimLeftSpace t2
               else match t2 with
                    | [] => s
                    | b3 :: t3 =>
                        if space3 b1 b2 b3 then TrimLeftSpace t3 else s
                    end
           end
  end.

(** Trailing white space runes, read on the reversed slice: the last byte
    comes first, so the encodings are matched back to front. *)
Fixpoint trim_rev_space (r : bytes) : bytes :=
  match r with
  | [] => []
  | b1 :: t1 =>
      if asciiSpace b1 then trim_rev_space t1
      else match t1 with
           | [] => r
           | b2 :: t2 =>
               if space2 b2 b1 then trim_rev_space t2
               else match t2 with
                    | [] => r
                    | b3 :: t3 =>
                        if space3 b3 b2 b1 then trim_rev_space t3 else r
                    end
           end
  end.

(** [bytes.TrimRightFunc(s, unicode.IsSpace)]. *)
Definition TrimRightSpace (s : bytes) : bytes := rev (trim_rev_space (rev s)).

(** [bytes.TrimSpace(s)]: all leading and trailing white space, as defined
    by Unicode, sliced off.  A [nil] result and an empty one are both [[]]. *)
Definition TrimSpace (s : bytes) : bytes := TrimRightSpace (TrimLeftSpace s).

(** Does [s] begin with a white space rune? *)
Definition starts_with_space (s : bytes) : bool :=
  match s with
  | [] => false
  | b1 :: t1 =>
      asciiSpace b1
      || match t1 with
         | [] => false
         | b2 :: t2 =>
             space2 b1 b2
             || match t2 with
                | [] => false
                | b3 :: _ => space3 b1 b2 b3
                end
         end
  end.

(** Does the slice whose reversal is [r] end with a white space rune? *)
Definition rev_starts_with_space (r : bytes) : bool :=
  match r with
  | [] => false
  | b1 :: t1 =>
      asciiSpace b1
      || match t1 with
         | [] => false
         | b2 :: t2 =>
             space2 b2 b1
             || match t2 with
                | [] => false
                | b3 :: _ => space3 b3 b2 b1
                end
         end
  end.

(** Does [s] end with a white space rune? *)
Definition ends_with_space (s : bytes) : bool := rev_starts_with_space (rev s).

(** A run of white space runes. *)
Inductive Blank : bytes -> Prop :=
| Blank_nil : Blank []
| Blank_ascii b ws : asciiSpace b = true -> Blank ws -> Blank (b :: ws)
| Blank_two b1 b2 ws : space2 b1 b2 = true -> Blank ws -> Blank (b1 :: b2 :: ws)
| Blank_three b1 b2 b3 ws :
    space3 b1 b2 b3 = true -> Blank ws -> Blank (b1 :: b2 :: b3 :: ws).

(** [bytes.Contains(s, sub)]. *)
Fixpoint Contains (s sub : bytes) : bool :=
  HasPrefix s sub
  || match s with
     | [] => false
     | _ :: t => Contains t sub
     end.

End Bytes.

(** ** Go runtime values shared by the packages *)

(** [time.Duration] counts nanoseconds; [time.Time] is an instant in
    nanoseconds, and [t.Add(d)] is [t + d]. *)
Abbreviation Duration := Z.
Abbreviation Time := Z.

Module time.
Definition Second : Duration := 1000000000.
End time.

(** A Go [error] value, by its message. *)
Abbreviation error := string.

(** A buffered channel: capacity, queued values (oldest first), and whether
    the producer side has closed it. *)
Record Chan (A : Type) : Type := mkChan {
  chan_cap : nat;
  chan_buf : list A;
  chan_closed : bool
}.
Arguments mkChan {A} _ _ _.
Arguments chan_cap {A} _.
Arguments chan_buf {A} _.
Arguments chan_closed {A} _.

(** [make(chan A, n)]. *)
Definition make_chan {A : Type} (n : nat) : Chan A := mkChan n [] false.

(** [v, ok := <-ch]: [None] when the receive is not ready (open and empty);
    otherwise the received value, [ok], and the channel afterwards.  A closed
    channel still delivers what is queued, and only then [ok = false]. *)
Definition chan_recv {A : Type} (ch : Chan A) : option (option A * Chan A) :=
  match chan_buf ch with
  | v :: q => Some (Some v, mkChan (chan_cap ch) q (chan_closed ch))
  | [] => if chan_closed ch then Some (None, ch) else None
  end.

(** [ch <- v] by a producer: [None] when the send does not complete (the
    buffer is full, or the channel is closed and the producer panics). *)
Definition chan_send {A : Type} (ch : Chan A) (v : A) : option (Chan A) :=
  if chan_closed ch then None
  else if decide (length (chan_buf ch) < chan_cap ch)%nat
       then Some (mkChan (chan_cap ch) (chan_buf ch ++ [v]) false)
       else None.

(** [close(ch)]. *)
Definition chan_close {A : Type} (ch : Chan A) : Chan A :=
  mkChan (chan_cap ch) (chan_buf ch) true.

(** ** Package clog *)

Module clog.

(** An argument of a logging call. *)
Inductive Arg : Type :=
| AString (s : string)
| ABool (b : bool)
| AError (e : error).

Inductive Level : Type := Debug | Warn | Error.

(** One call [clog.Level(pkg, fn, format, args...)]. *)
Record Entry : Type := mkEntry {
  level : Level;
  pkg : string;
  fn : string;
  format : string;
  args : list Arg
}.

End clog.

(** ** Package websocket (gorilla), as far as the pumps use it *)

Module websocket.

(** A [*websocket.Conn], by the identity of the connection and the remote
    address it reports. *)
Record Conn : Type := mkConn {
  conn_id : nat;
  RemoteAddr : string
}.

Definition TextMessage : Z := 1.
Definition CloseMessage : Z := 8.
Definition PingMessage : Z := 9.

Definition CloseNormalClosure : Z := 1000.
Definition CloseGoingAway : Z := 1001.
Definition CloseNoStatusReceived : Z := 1005.

Definition byte_of_Z (z : Z) : byte :=
  default x00 (Byte.of_N (Z.to_N (z mod 256))).

(** [FormatCloseMessage(closeCode, text)]: the close code as a big-endian
    [uint16], then the text. *)
Definition FormatCloseMessage (closeCode : Z) (text : string) : bytes :=
  if closeCode =? CloseNoStatusReceived then []
  else byte_of_Z (closeCode mod 65536 / 256) :: byte_of_Z closeCode
         :: bytes_of_string text.

End websocket.

(** ** Package Hub *)

Module Hub.

(** Modelled from the spec: the declarations of package Hub are not among
    the sources.  The roles are those of the spec's data model
    ("one of Undefined, User, Monitor, Server, Incoming"); the source names
    [ClientUndefined] and [ClientUser]. *)
Inductive ClientType : Type :=
| ClientUndefined
| ClientUser
| ClientMonitor
| ClientServer
| ClientIncomming.

#[global] Instance ClientType_eq_dec : EqDecision ClientType.
Proof. solve_decision. Defined.

(** Modelled from the spec: the access mode, "ReadWrite, ..."; the source
    names [ReadWrite] only, [OtherMode] stands for the modes it does not
    show. *)
Inductive AccessMode : Type :=
| ReadWrite
| OtherMode (n : nat).

(** The [Conn] field is an [interface{}]: the pumps of this package assert
    that it holds a [*websocket.Conn]; other transports store something
    else there. *)
Inductive Transport : Type :=
| WebSocket (conn : websocket.Conn)
| OtherTransport (id : nat).

(** [Hub.CallToAction] is a function type.  The handler is opaque to this
    package, which only starts it; it is represented by its identity. *)
Abbreviation CallToActionFunc := nat.

(** The fields of [Hub.Client], as the composite literal in [wsConnect]
    lists them.  [Hub] is the pointer to the hub, by its address. *)
Record Client : Type := mkClient {
  Hub : nat;
  Conn : Transport;
  Quit : Chan bool;
  CType : ClientType;
  Send : Chan bytes;
  CallToAction : CallToActionFunc;
  Addr : string;
  Identified : bool;
  Name : string;
  Content_id : Z;
  Front_id : string;
  App_id : string;
  Country : string;
  User_agent : string;
  Mode : AccessMode
}.

(** Modelled from the spec: the Directory, "the set of connected peers,
    grouped by role".  [Users] is the map the status page reads
    ([m.Hub.Users]); [Others] holds the groups of the remaining roles, whose
    field names the sources do not show. *)
Record State : Type := mkState {
  Users : gmap string Client;
  Others : ClientType -> gmap string Client
}.

Definition members (h : State) (role : ClientType) : gmap string Client :=
  match role with
  | ClientUser => Users h
  | _ => Others h role
  end.

(** Modelled from the spec: [UserExists] of package Hub is not among the
    sources.  "Exists(identity, role): true iff a Peer Record with that
    identity is currently registered under that role." *)
Definition UserExists (h : State) (name : string) (role : ClientType) : bool :=
  bool_decide (is_Some (members h role !! name)).

Inductive Verdict : Type :=
| Accepted
| RejectedDuplicate
| RejectedCapacity.

(** Modelled from the spec: the admission function of package Hub is not
    among the sources.  "Admit(record): rejects when an identity collision
    exists for the given role, or when the role's capacity ceiling
    (configured per role) would be exceeded."  [ceiling] gives the
    configured maximum of each role. *)
Definition Admit (ceiling : ClientType -> nat) (h : State) (c : Client) : Verdict :=
  if UserExists h (Name c) (CType c) then RejectedDuplicate
  else if decide (ceiling (CType c) <= size (members h (CType c)))%nat
       then RejectedCapacity
       else Accepted.

End Hub.

(** ** Package HTTPServer *)

Module HTTPServer.

Definition writeWait : Duration := 5 * time.Second.
Definition pongWait : Duration := 60 * time.Second.
Definition pingPeriod : Duration := Z.quot (pongWait * 9) 10.
Definition maxMessageSize : Z := 512.

Definition Newline : bytes := [x0d; x0a].
Definition Space : bytes := [x20].

(** [Manager], but for its [Upgrader]: what [m.Upgrader.Upgrade] returns is
    given with each connection ([Upgrade] of a [Session] below).  [Hub] is
    the pointer to the hub, by its address. *)
Record Manager : Type := mkManager {
  Httpaddr : string;
  ServerName : string;
  Hub : nat;
  ReadBufferSize : Z;
  WriteBufferSize : Z;
  HandshakeTimeout : Z
}.

(** *** Effects *)

(** What a function of this package does to the world, in program order. *)
Inductive Event : Type :=
| Log (entry : clog.Entry)
| SetReadLimit (conn : websocket.Conn) (limit : Z)
| SetReadDeadline (conn : websocket.Conn) (t : Time)
| SetPongHandler (conn : websocket.Conn)
| SetWriteDeadline (conn : websocket.Conn) (t : Time)
| WriteMessage (conn : websocket.Conn) (messageType : Z) (data : bytes)
| Close (conn : websocket.Conn)
| NewTicker (d : Duration)
| TickerStop
| GoCallToAction (c : Hub.Client) (message : bytes)
| GoWriter (c : Hub.Client)
| SendRegister (c : Hub.Client)
| SendUnregister (c : Hub.Client).

(** A [clog] call of this package. *)
Definition logf (l : clog.Level) (fn format : string) (args : list clog.Arg)
    : Event :=
  Log (clog.mkEntry l "HTTPServer" fn format args).

(** How far a call got on the input it was given: it returned, it is
    blocked waiting for the next input, or it panicked. *)
Inductive Status : Type := Returned | Blocked | Panicked.

#[global] Instance Status_eq_dec : EqDecision Status.
Proof. solve_decision. Defined.

Definition Outcome : Type := list Event * Status.

(** Sequencing of two calls: the second runs when the first returned. *)
Definition andThen (o : Outcome) (k : Outcome) : Outcome :=
  match o.2 with
  | Returned => (o.1 ++ k.1, k.2)
  | _ => o
  end.

Notation "o ;> k" := (andThen o k) (at level 65, right associativity).

Definition emit (es : list Event) : Outcome := (es, Returned).

(** *** The inbound pump: [Reader] *)

(** What the transport delivers to [conn.ReadMessage()]. *)
Inductive Inbound : Type :=
| Frame (payload : bytes)           (* a complete data message *)
| Pong (now : Time) (appData : string) (* a pong; the handler runs at [now] *)
| ReadError (err : error).           (* network failure, deadline, close *)

(** The frame normalisation of [Reader]:
    [bytes.TrimSpace(bytes.Replace(message, Newline, Space, -1))]. *)
Definition normalize (message : bytes) : bytes :=
  Bytes.TrimSpace (Bytes.Replace message Newline Space (-1)).

(** The [for] loop of [Reader].  A message longer than the read limit makes
    [ReadMessage] fail; a pong runs the pong handler inside [ReadMessage],
    which then goes on waiting for a message.  [Blocked]: the input ended
    while the loop waits in [ReadMessage]. *)
Fixpoint Reader_loop (c : Hub.Client) (conn : websocket.Conn) (limit : Z)
    (input : list Inbound) : Outcome :=
  match input with
  | [] => ([], Blocked)
  | Frame message :: rest =>
      if Z.of_nat (length message) >? limit
      then emit []
      else emit [GoCallToAction c (normalize message)]
           ;> Reader_loop c conn limit rest
  | Pong now _ :: rest =>
      emit [SetReadDeadline conn (now + pongWait);
            logf clog.Debug "Reader" "PONG! from %s" [clog.AString (Hub.Name c)]]
      ;> Reader_loop c conn limit rest
  | ReadError _ :: _ => emit []
  end.

(** [Reader(c)], entered at time [now].  The deferred [Close] runs when the
    loop is left.  On a client whose transport is not a websocket the type
    assertion panics, and so does the one in the deferred function. *)
Definition Reader (c : Hub.Client) (now : Time) (input : list Inbound) : Outcome :=
  match Hub.Conn c with
  | Hub.WebSocket conn =>
      emit [SetReadLimit conn maxMessageSize;
            SetReadDeadline conn (now + pongWait);
            SetPongHandler conn]
      ;> Reader_loop c conn maxMessageSize input
      ;> emit [Close conn]
  | Hub.OtherTransport _ => ([], Panicked)
  end.

(** *** The outbound pump: [Writer] *)

(** [_write(ws, mt, message)] at time [now]; [werr] is what
    [ws.WriteMessage] returns, which [_write] returns in turn. *)
Definition _write (ws : websocket.Conn) (mt : Z) (message : bytes)
    (now : Time) (werr : option error) : list Event * option error :=
  ([SetWriteDeadline ws (now + writeWait); WriteMessage ws mt message], werr).

(** What happens around the [select] of [Writer]: producers act on the
    queue, and the [select] takes one of its three cases.  A case that
    writes carries the time of the write and the result of
    [WriteMessage].  A producer's send that cannot complete leaves the queue
    as it is. *)
Inductive Wake : Type :=
| Produce (message : bytes)                 (* a producer: [c.Send <- message] *)
| CloseSend                                 (* a producer: [close(c.Send)] *)
| TakeSend (now : Time) (werr : option error) (* [case message, ok := <-c.Send] *)
| TakeTick (now : Time) (werr : option error) (* [case <-ticker.C] *)
| TakeQuit.                                 (* [case <-c.Quit] *)

(** The [for]/[select] loop of [Writer], on the queue [send].  The result
    tells whether the loop was left ([Returned]) or still waits in
    [select] ([Blocked]).  [TakeSend] on an open, empty queue is a case that
    is not ready: nothing happens. *)
Fixpoint Writer_loop (c : Hub.Client) (conn : websocket.Conn)
    (send : Chan bytes) (input : list Wake) : Outcome :=
  match input with
  | [] => ([], Blocked)
  | Produce message :: rest =>
      Writer_loop c conn (default send (chan_send send message)) rest
  | CloseSend :: rest => Writer_loop c conn (chan_close send) rest
  | TakeSend now werr :: rest =>
      match chan_recv send with
      | None => Writer_loop c conn send rest
      | Some (None, _) =>
          let cm := websocket.FormatCloseMessage
                      websocket.CloseNormalClosure "Disconnected" in
          let '(es, err) := _write conn websocket.CloseMessage cm now werr in
          emit (logf clog.Warn "Writer" "Error: %s" [clog.ABool false] :: es
                ++ match err with
                   | Some _ => [logf clog.Error "_close"
                                  "Cannot write CloseMessage to %s"
                                  [clog.AString (Hub.Name c)]]
                   | None => []
                   end)
      | Some (Some message, send') =>
          let '(es, err) := _write conn websocket.TextMessage message now werr in
          match err with
          | Some _ => emit es
          | None => emit es ;> Writer_loop c conn send' rest
          end
      end
  | TakeTick now werr :: rest =>
      let ping := logf clog.Debug "Writer" "Client %s Ping!"
                    [clog.AString (Hub.Name c)] in
      let '(es, err) := _write conn websocket.PingMessage [] now werr in
      match err with
      | Some _ => emit (ping :: es)
      | None => emit (ping :: es) ;> Writer_loop c conn send rest
      end
  | TakeQuit :: _ => emit []
  end.

(** [Writer(c)].  The ticker is created first; the deferred function stops
    it and closes the connection when the loop is left.  On a client whose
    transport is not a websocket the type assertion panics after the ticker
    was created, the deferred function stops the ticker and panics at its
    own assertion. *)
Definition Writer (c : Hub.Client) (input : list Wake) : Outcome :=
  match Hub.Conn c with
  | Hub.WebSocket conn =>
      emit [NewTicker pingPeriod]
      ;> Writer_loop c conn (Hub.Send c) input
      ;> emit [TickerStop; Close conn]
  | Hub.OtherTransport _ => ([NewTicker pingPeriod; TickerStop], Panicked)
  end.

(** *** Registration: [wsConnect] *)

(** [http.Request], by its header. *)
Record Request : Type := mkRequest {
  Header : gmap string (list string)
}.

(** What the environment of one call of [wsConnect] provides: the result of
    [m.Upgrader.Upgrade], the time at which [Reader] is entered, and what
    the transport then delivers. *)
Record Session : Type := mkSession {
  Upgrade : websocket.Conn + error;
  reader_start : Time;
  inbound : list Inbound
}.

(** The user agent [wsConnect] records: the first ["User-Agent"] value when
    the header has one ([len(r.Header["User-Agent"]) > 0]), ["n/a"]
    otherwise. *)
Definition user_agent (r : Request) : string :=
  match Header r !! "User-Agent" with
  | Some (u :: _) => u
  | _ => "n/a"
  end.

(** The [&Hub.Client{...}] literal of [wsConnect]. *)
Definition new_client (m : Manager) (httpconn : websocket.Conn)
    (cta : Hub.CallToActionFunc) (name ua : string) : Hub.Client :=
  {| Hub.Hub := Hub m; Hub.Conn := Hub.WebSocket httpconn;
     Hub.Quit := make_chan 0;
     Hub.CType := Hub.ClientUndefined; Hub.Send := make_chan 256;
     Hub.CallToAction := cta;
     Hub.Addr := websocket.RemoteAddr httpconn;
     Hub.Identified := false; Hub.Name := name; Hub.Content_id := 0;
     Hub.Front_id := EmptyString; Hub.App_id := EmptyString; Hub.Country := EmptyString;
     Hub.User_agent := ua; Hub.Mode := Hub.ReadWrite |}.

(** [wsConnect(w, r, cta)], with [h] the state of [m.Hub] when [UserExists]
    reads it.  The sends on [m.Hub.Register] and [m.Hub.Unregister] are
    recorded where they are executed; nothing comes back from them.
    [go m.Writer(client)] starts the outbound pump, which then runs on its
    own; [m.Reader(client)] runs here.  Indexing a missing
    ["Sec-Websocket-Key"] header panics.  The two sends are taken to
    complete (the hub's loop receives); a call that waits in a send is not
    told apart here. *)
Definition wsConnect (m : Manager) (h : Hub.State) (r : Request)
    (cta : Hub.CallToActionFunc) (s : Session) : Outcome :=
  match Upgrade s with
  | inr err => emit [logf clog.Error "wsConnect" "%s" [clog.AError err]]
  | inl httpconn =>
      match Header r !! "Sec-Websocket-Key" with
      | Some (name :: _) =>
          let ua := user_agent r in
          if Hub.UserExists h name Hub.ClientUser
          then emit [logf clog.Warn "wsConnect"
                       "Client %s already exists ... Refusing connection"
                       [clog.AString name]]
          else
            let client := new_client m httpconn cta name ua in
            emit [SendRegister client; GoWriter client]
            ;> Reader client (reader_start s) (inbound s)
            ;> emit [SendUnregister client]
      | _ => ([], Panicked)
      end
  end.

(** *** Reading traces and inputs *)

(** The handler calls a trace starts, in order. *)
Definition dispatched (tr : list Event) : list (Hub.Client * bytes) :=
  omap (fun e => match e with
                 | GoCallToAction c message => Some (c, message)
                 | _ => None
                 end) tr.

(** The records a trace sends on [Register], and on [Unregister]. *)
Definition registered (tr : list Event) : list Hub.Client :=
  omap (fun e => match e with SendRegister c => Some c | _ => None end) tr.

Definition unregistered (tr : list Event) : list Hub.Client :=
  omap (fun e => match e with SendUnregister c => Some c | _ => None end) tr.

(** The outbound pumps a trace starts. *)
Definition writers_started (tr : list Event) : list Hub.Client :=
  omap (fun e => match e with GoWriter c => Some c | _ => None end) tr.

(** The frames a trace writes to the transport. *)
Definition frames_written (tr : list Event) : list (Z * bytes) :=
  omap (fun e => match e with
                 | WriteMessage _ mt data => Some (mt, data)
                 | _ => None
                 end) tr.

(** The connections a trace closes. *)
Definition closed (tr : list Event) : list websocket.Conn :=
  omap (fun e => match e with Close conn => Some conn | _ => None end) tr.

(** The connections on which a trace enters the inbound pump, which sets
    the read limit first. *)
Definition readers_entered (tr : list Event) : list websocket.Conn :=
  omap (fun e => match e with SetReadLimit conn _ => Some conn | _ => None end) tr.

(** Does a read fail on this item: an error of the transport, or a message
    over the limit? *)
Definition read_fails (limit : Z) (i : Inbound) : bool :=
  match i with
  | Frame payload => Z.of_nat (length payload) >? limit
  | Pong _ _ => false
  | ReadError _ => true
  end.

(** The messages [ReadMessage] returns without error, in order: those that
    arrive before the first failing read. *)
Fixpoint received (limit : Z) (input : list Inbound) : list bytes :=
  match input with
  | [] => []
  | i :: rest =>
      if read_fails limit i then []
      else match i with
           | Frame payload => payload :: received limit rest
           | _ => received limit rest
           end
  end.

(** The queue after the producers and the pump acted as [input] says. *)
Fixpoint send_after (send : Chan bytes) (input : list Wake) : Chan bytes :=
  match input with
  | [] => send
  | Produce message :: rest =>
      send_after (default send (chan_send send message)) rest
  | CloseSend :: rest => send_after (chan_close send) rest
  | TakeSend _ _ :: rest =>
      match chan_recv send with
      | Some (Some _, send') => send_after send' rest
      | _ => send_after send rest
      end
  | (TakeTick _ _ | TakeQuit) :: rest => send_after send rest
  end.

End HTTPServer.

(** ** Package flag of the Go library, for string flags *)

Module flag.

(** [flag.CommandLine]: the flags defined so far, each with the current
    value of the string variable it points to.  A [*string] returned by
    [flag.String] is the location of that variable, named by the flag. *)
Abbreviation FlagSet := (gmap string string).

(** [*p]. *)
Definition deref (fs : FlagSet) (p : string) : string := default EmptyString (fs !! p).

(** The text after the dashes, split at the first ['='] past its first
    character. *)
Fixpoint cut_value (s : string) : string * option string :=
  match s with
  | EmptyString => (EmptyString, None)
  | String c s' =>
      if bool_decide (c = "="%char) then (EmptyString, Some s')
      else let '(name, value) := cut_value s' in (String c name, value)
  end.

Inductive Token : Type :=
| NonFlag                                 (* not a flag: parsing stops *)
| Terminator                              (* ["--"]: parsing stops *)
| BadSyntax
| Flag (name : string) (value : option string).

(** The head of [parseOne]: one argument, read as a flag. *)
Definition classify (s : string) : Token :=
  match s with
  | String c0 (String c1 s') =>
      if bool_decide (c0 = "-"%char) then
        let name := if bool_decide (c1 = "-"%char) then s' else String c1 s' in
        if bool_decide (c1 = "-"%char) && bool_decide (s' = EmptyString)
        then Terminator
        else match name with
             | EmptyString => BadSyntax
             | String d rest =>
                 if bool_decide (d = "-"%char) || bool_decide (d = "="%char)
                 then BadSyntax
                 else let '(n, v) := cut_value rest in Flag (String d n) v
             end
      else NonFlag
  | _ => NonFlag
  end.

(** The loop of [Parse] over the arguments.  [pending] is a flag that was
    given without ["=value"] and takes the next argument as its value.
    [None]: an error, on which [flag.CommandLine] (ExitOnError) ends the
    process (with status 2; Go 1.15 and later exit with 0 when the error is
    the request for help, [-h] or [-help] undefined). *)
Fixpoint parse_args (fs : FlagSet) (pending : option string)
    (arguments : list string) : option FlagSet :=
  match arguments with
  | [] => match pending with
          | Some _ => None
          | None => Some fs
          end
  | s :: rest =>
      match pending with
      | Some name => parse_args (<[name := s]> fs) None rest
      | None =>
          match classify s with
          | NonFlag | Terminator => Some fs
          | BadSyntax => None
          | Flag name value =>
              match fs !! name with
              | None => None
              | Some _ =>
                  match value with
                  | Some v => parse_args (<[name := v]> fs) None rest
                  | None => parse_args fs (Some name) rest
                  end
              end
          end
      end
  end.

(** [flag.Parse()] on the command line [arguments] ([os.Args[1:]]). *)
Definition Parse (fs : FlagSet) (arguments : list string) : option FlagSet :=
  parse_args fs None arguments.

(** [flag.String(name, value, usage)]: defines the flag and returns the
    pointer to its variable, which holds [value].  [None]: the flag is
    already defined, and [flag] panics. *)
Definition String (fs : FlagSet) (name value usage : string)
    : option (string * FlagSet) :=
  match fs !! name with
  | Some _ => None
  | None => Some (name, <[name := value]> fs)
  end.

End flag.

(** ** Package ini (go-ini), at its interface *)

Module ini.

(** [*ini.Section], by what [KeysHash()] returns. *)
Record Sect : Type := mkSect {
  KeysHash : gmap string string
}.

(** A loaded [*ini.File], by the two methods [Load] calls on it.  [MapTo]
    writes into the struct it is given and returns an error or [nil]. *)
Record File (T : Type) : Type := mkFile {
  MapTo : T -> T * option error;
  GetSection : string -> Sect + error
}.
Arguments MapTo {T} _ _.
Arguments GetSection {T} _ _.

End ini.

(** ** Package Config *)

Module Config.

Record ServerID : Type := mkServerID { Name : string }.

Record Globals : Type := mkGlobals {
  LogLevel : Z;
  StartLogging : bool
}.

Record ConnectionLimit : Type := mkConnectionLimit {
  MaxUsersConns : Z;
  MaxMonitorsConns : Z;
  MaxServersConns : Z;
  MaxIncommingConns : Z
}.

Record ServersAddresses : Type := mkServersAddresses {
  HTTPaddr : string;
  TCPaddr : string
}.

(** A [nil] map and an empty one are both [∅]. *)
Record KnownBrothers : Type := mkKnownBrothers {
  Servers : gmap string string
}.

Record HTTPServerConfig : Type := mkHTTPServerConfig {
  ReadBufferSize : Z;
  WriteBufferSize : Z;
  HandshakeTimeout : Z
}.

Record TCPServerConfig : Type := mkTCPServerConfig {
  ConnectTimeOut : Z;
  WriteTimeOut : Z;
  ScalingCheckServerPeriod : Z
}.

Record Encryption : Type := mkEncryption {
  HASH_SIZE : Z;
  HEX_KEY : string;
  HEX_IV : string
}.

(** [Data] embeds the eight structs; a promoted field such as
    [conf.HTTPaddr] is the field of the embedded struct. *)
Record Data : Type := mkData {
  ServerID_ : ServerID;
  Globals_ : Globals;
  ConnectionLimit_ : ConnectionLimit;
  ServersAddresses_ : ServersAddresses;
  KnownBrothers_ : KnownBrothers;
  HTTPServerConfig_ : HTTPServerConfig;
  TCPServerConfig_ : TCPServerConfig;
  Encryption_ : Encryption
}.

(** [conf.HTTPaddr = v]. *)
Definition set_HTTPaddr (v : string) (conf : Data) : Data :=
  mkData (ServerID_ conf) (Globals_ conf) (ConnectionLimit_ conf)
    (mkServersAddresses v (TCPaddr (ServersAddresses_ conf)))
    (KnownBrothers_ conf) (HTTPServerConfig_ conf) (TCPServerConfig_ conf)
    (Encryption_ conf).

(** [conf.TCPaddr = v]. *)
Definition set_TCPaddr (v : string) (conf : Data) : Data :=
  mkData (ServerID_ conf) (Globals_ conf) (ConnectionLimit_ conf)
    (mkServersAddresses (HTTPaddr (ServersAddresses_ conf)) v)
    (KnownBrothers_ conf) (HTTPServerConfig_ conf) (TCPServerConfig_ conf)
    (Encryption_ conf).

(** [conf.KnownBrothers.Servers = v]. *)
Definition set_Servers (v : gmap string string) (conf : Data) : Data :=
  mkData (ServerID_ conf) (Globals_ conf) (ConnectionLimit_ conf)
    (ServersAddresses_ conf) (mkKnownBrothers v) (HTTPServerConfig_ conf)
    (TCPServerConfig_ conf) (Encryption_ conf).

(** The composite literal [Load] starts from; fields it leaves out hold
    their zero values. *)
Definition defaults : Data :=
  mkData
    (mkServerID EmptyString)
    (mkGlobals 4 true)
    (mkConnectionLimit 100 3 5 50)
    (mkServersAddresses EmptyString EmptyString)
    (mkKnownBrothers ∅)
    (mkHTTPServerConfig 4096 4096 5)
    (mkTCPServerConfig 2 1 10)
    (mkEncryption 8
       "0000000000000000000000000000000000000000000000000000000000000000"
       "00000000000000000000000000000000").

(** The process around one call of [Load]: the command line, the
    environment variable [GOPATH], the flags defined before the call, and
    what [ini.Load] gives for a path. *)
Record Process : Type := mkProcess {
  Args : list string;
  GOPATH : string;
  CommandLine : flag.FlagSet;
  ini_Load : string -> ini.File Data + error
}.

(** How a call of [Load] ends: it returns its two results (a [*Data], [nil]
    or not, and an [error], [nil] or not), the process exits in
    [flag.Parse], or [flag.String] panics. *)
Inductive Result : Type :=
| Returns (conf : option Data) (err : option error)
| Exits (code : Z)
| Panics.

(** The two assignments from the flag pointers: each is dereferenced as
    soon as [flag.String] returns it.  Gives the configuration and the flag
    set after both. *)
Definition Load_flags (fs : flag.FlagSet) (conf : Data)
    : option (Data * flag.FlagSet) :=
  match flag.String fs "httpaddr" "localhost:8080" "http service address" with
  | None => None
  | Some (p1, fs1) =>
      let conf1 := set_HTTPaddr (flag.deref fs1 p1) conf in
      match flag.String fs1 "tcpaddr" "localhost:8081" "tcp service address" with
      | None => None
      | Some (p2, fs2) => Some (set_TCPaddr (flag.deref fs2 p2) conf1, fs2)
      end
  end.

(** [Load()], with the entries it logs. *)
Definition Load (w : Process) : list clog.Entry * Result :=
  let conf := defaults in
  match Load_flags (CommandLine w) conf with
  | None => ([], Panics)
  | Some (conf, fs) =>
      match flag.Parse fs (Args w) with
      | None => ([], Exits 2)
      | Some _ =>
          match ini_Load w (GOPATH w +:+ "/etc/server.ini") with
          | inr err =>
              ([clog.mkEntry clog.Error "server" "getConf"
                  "Invalid conf file: %s" [clog.AError err]],
               Returns (Some conf) (Some err))
          | inl cfg =>
              let '(conf, _) := ini.MapTo cfg conf in
              match ini.GetSection cfg "KnownBrothers" with
              | inl sec1 =>
                  ([], Returns (Some (set_Servers (ini.KeysHash sec1) conf)) None)
              | inr err => ([], Returns (Some conf) (Some err))
              end
          end
      end
  end.

(** The same process, started with other command-line arguments. *)
Definition with_Args (w : Process) (arguments : list string) : Process :=
  mkProcess arguments (GOPATH w) (CommandLine w) (ini_Load w).

End Config.

(** ** Concrete runs *)

Module Run.

Import HTTPServer.

Definition manager : Manager :=
  mkManager "localhost:8080" "srv1" 1 4096 4096 5.

Definition conn1 : websocket.Conn := websocket.mkConn 1 "10.0.0.7:51000".
Definition conn2 : websocket.Conn := websocket.mkConn 2 "10.0.0.8:51001".

(** The handler given to [Start]. *)
Definition handler : Hub.CallToActionFunc := 7%nat.

(** A user already in the Directory as ["peer1"]. *)
Definition peer1 : Hub.Client :=
  {| Hub.Hub := 1; Hub.Conn := Hub.WebSocket conn1; Hub.Quit := make_chan 0;
     Hub.CType := Hub.ClientUser; Hub.Send := make_chan 256;
     Hub.CallToAction := handler; Hub.Addr := "10.0.0.7:51000";
     Hub.Identified := true; Hub.Name := "peer1"; Hub.Content_id := 0;
     Hub.Front_id := EmptyString; Hub.App_id := EmptyString; Hub.Country := EmptyString;
     Hub.User_agent := "n/a"; Hub.Mode := Hub.ReadWrite |}.

Definition hub_empty : Hub.State := Hub.mkState ∅ (fun _ => ∅).

Definition hub_with_peer1 : Hub.State :=
  Hub.mkState {[ "peer1" := peer1 ]} (fun _ => ∅).

(** A handshake with key ["peer1"] and no ["User-Agent"] header. *)
Definition request_peer1 : Request :=
  mkRequest {[ "Sec-Websocket-Key" := ["peer1"] ]}.

(** A handshake with key ["peer2"] from a browser. *)
Definition request_peer2 : Request :=
  mkRequest (<[ "User-Agent" := ["Mozilla/5.0"] ]>
               {[ "Sec-Websocket-Key" := ["peer2"] ]}).

(** The second connection: the upgrade succeeds, one frame arrives, then
    the peer goes away. *)
Definition session2 : Session :=
  mkSession (inl conn2) 1000
    [Frame (bytes_of_string "  hello" ++ [x0d; x0a] ++ bytes_of_string "world" ++ [x0d; x0a]);
     ReadError "EOF"].

(** The same connection while the peer is still there. *)
Definition session2_open : Session :=
  mkSession (inl conn2) 1000
    [Frame (bytes_of_string "  hello" ++ [x0d; x0a] ++ bytes_of_string "world" ++ [x0d; x0a])].

(** The record [wsConnect] builds for the handshake with key ["peer1"] on
    [conn2]. *)
Definition client2 : Hub.Client :=
  new_client manager conn2 handler "peer1" "n/a".

(** A Directory configured to hold nobody: every ceiling is zero. *)
Definition no_room : Hub.ClientType -> nat := fun _ => 0%nat.

(** The third connection: a frame of 600 bytes arrives after a pong and a
    short frame. *)
Definition session3 : Session :=
  mkSession (inl conn2) 1000
    [Pong 2000 EmptyString; Frame (bytes_of_string "ok"); Frame (replicate 600 x41);
     Frame (bytes_of_string "late")].

(** A process started as [server -httpaddr=0.0.0.0:9000] with no
    [server.ini] under [GOPATH]. *)
Definition process : Config.Process :=
  Config.mkProcess ["-httpaddr=0.0.0.0:9000"] "/home/go" ∅
    (fun path => inr ("open " +:+ path +:+ ": no such file or directory")).

End Run.

(** ** More readings of traces and inputs *)

Module Observe.

(** The first byte of a white space rune: an ASCII white space byte or one
    of the four lead bytes. *)
Definition rune_start (b : byte) : Prop :=
  Bytes.asciiSpace b = true \/ b = xc2 \/ b = xe1 \/ b = xe2 \/ b = xe3.

#[global] Instance Conn_eq_dec : EqDecision websocket.Conn.
Proof. solve_decision. Defined.

(** Do write deadlines and writes come only in pairs: each deadline at once
    followed by a write on the same connection, and no write without one? *)
Fixpoint paired (tr : list HTTPServer.Event) : bool :=
  match tr with
  | [] => true
  | HTTPServer.SetWriteDeadline conn _ :: rest =>
      match rest with
      | HTTPServer.WriteMessage conn' _ _ :: rest' =>
          bool_decide (conn = conn') && paired rest'
      | _ => false
      end
  | HTTPServer.WriteMessage _ _ _ :: _ => false
  | _ :: rest => paired rest
  end.

(** The kinds of frame the outbound pump writes: a text frame, a ping with
    no payload, or the close frame for a normal closure. *)
Definition frame_kind (f : Z * bytes) : Prop :=
  f.1 = websocket.TextMessage
  \/ f = (websocket.PingMessage, [])
  \/ f = (websocket.CloseMessage,
          websocket.FormatCloseMessage websocket.CloseNormalClosure "Disconnected").

(** The connections a trace acts on: settings, writes and closes. *)
Definition touched (tr : list HTTPServer.Event) : list websocket.Conn :=
  omap (fun e => match e with
                 | HTTPServer.SetReadLimit conn _
                 | HTTPServer.SetReadDeadline conn _
                 | HTTPServer.SetPongHandler conn
                 | HTTPServer.SetWriteDeadline conn _
                 | HTTPServer.WriteMessage conn _ _
                 | HTTPServer.Close conn => Some conn
                 | _ => None
                 end) tr.

(** The payloads of the text frames a trace writes, in order. *)
Definition text_frames (tr : list HTTPServer.Event) : list bytes :=
  omap (fun e => match e with
                 | HTTPServer.WriteMessage _ mt data =>
                     if mt =? websocket.TextMessage then Some data else None
                 | _ => None
                 end) tr.

(** The read deadlines a trace sets, in order. *)
Definition read_deadlines (tr : list HTTPServer.Event) : list Time :=
  omap (fun e => match e with
                 | HTTPServer.SetReadDeadline _ t => Some t
                 | _ => None
                 end) tr.

(** The write deadlines a trace sets, in order. *)
Definition write_deadlines (tr : list HTTPServer.Event) : list Time :=
  omap (fun e => match e with
                 | HTTPServer.SetWriteDeadline _ t => Some t
                 | _ => None
                 end) tr.

(** The times of the pongs that arrive before the first failing read. *)
Fixpoint pongs (limit : Z) (input : list HTTPServer.Inbound) : list Time :=
  match input with
  | [] => []
  | i :: rest =>
      if HTTPServer.read_fails limit i then []
      else match i with
           | HTTPServer.Pong now _ => now :: pongs limit rest
           | _ => pongs limit rest
           end
  end.

(** The messages the producers got into the queue: a send that cannot
    complete adds nothing. *)
Fixpoint accepted (send : Chan bytes) (input : list HTTPServer.Wake) : list bytes :=
  match input with
  | [] => []
  | HTTPServer.Produce message :: rest =>
      match chan_send send message with
      | Some send' => message :: accepted send' rest
      | None => accepted send rest
      end
  | HTTPServer.CloseSend :: rest => accepted (chan_close send) rest
  | HTTPServer.TakeSend _ _ :: rest =>
      match chan_recv send with
      | Some (Some _, send') => accepted send' rest
      | _ => accepted send rest
      end
  | (HTTPServer.TakeTick _ _ | HTTPServer.TakeQuit) :: rest => accepted send rest
  end.

(** All the messages producers tried to send. *)
Definition produced (input : list HTTPServer.Wake) : list bytes :=
  omap (fun w => match w with
                 | HTTPServer.Produce message => Some message
                 | _ => None
                 end) input.

(** The times at which the [select] took a case that writes. *)
Definition wake_times (input : list HTTPServer.Wake) : list Time :=
  omap (fun w => match w with
                 | HTTPServer.TakeSend now _ | HTTPServer.TakeTick now _ => Some now
                 | _ => None
                 end) input.

(** Does the producer side close the queue somewhere in [input]? *)
Definition closes_queue (input : list HTTPServer.Wake) : bool :=
  existsb (fun w => match w with HTTPServer.CloseSend => true | _ => false end) input.

End Observe.

(** ** Package HTTPServer: [Start] *)

Module Startup.

(** Arithmetic on [int64] wraps around. *)
Definition int64 (z : Z) : Z := (z + 2 ^ 63) mod 2 ^ 64 - 2 ^ 63.

(** The fields of [websocket.Upgrader] that [Start] sets. *)
Record Upgrader : Type := mkUpgrader {
  CheckOrigin : HTTPServer.Request -> bool;
  ReadBufferSize : Z;
  WriteBufferSize : Z;
  HandshakeTimeout : Duration
}.

(** What [Start] hands to [http.HandleFunc]. *)
Inductive Handler : Type :=
| testPage
| statusPage
| wsConnect (cta : Hub.CallToActionFunc).

(** What [Start] does to the process. *)
Inductive Event : Type :=
| HandleFunc (pattern : string) (handler : Handler)
| ListenAndServe (addr : string)
| LogFatal (prefix : string) (err : error).

(** How the call ends: it serves on, the process exits in [log.Fatal], or
    [http.HandleFunc] panics on a pattern registered before. *)
Inductive Status : Type := Serving | Exits (code : Z) | Panics.

(** [http.HandleFunc(pattern, handler)] on the default mux, given the
    patterns registered so far: [None] when the pattern is taken, and
    [net/http] panics. *)
Definition http_HandleFunc (mux : gmap string Handler) (pattern : string)
    (handler : Handler) : option (gmap string Handler) :=
  match mux !! pattern with
  | Some _ => None
  | None => Some (<[pattern := handler]> mux)
  end.

(** [m.Start(conf, cta)].  The receiver is overwritten by [conf] at once
    ([m = conf]), so all that follows reads and writes [conf]; the result
    holds the upgrader stored in [conf.Upgrader] and the default mux.
    [listen] is what [http.ListenAndServe] returns, if it returns. *)
Definition Start (m conf : HTTPServer.Manager) (cta : Hub.CallToActionFunc)
    (mux : gmap string Handler) (listen : option error)
    : Upgrader * gmap string Handler * list Event * Status :=
  let m := conf in
  let upgrader :=
    {| CheckOrigin := fun _ => true;
       ReadBufferSize := HTTPServer.ReadBufferSize m;
       WriteBufferSize := HTTPServer.WriteBufferSize m;
       HandshakeTimeout := int64 (HTTPServer.HandshakeTimeout m * time.Second) |} in
  match http_HandleFunc mux "/test" testPage with
  | None => (upgrader, mux, [], Panics)
  | Some mux1 =>
      match http_HandleFunc mux1 "/status" statusPage with
      | None => (upgrader, mux1, [HandleFunc "/test" testPage], Panics)
      | Some mux2 =>
          match http_HandleFunc mux2 "/ws" (wsConnect cta) with
          | None =>
              (upgrader, mux2,
               [HandleFunc "/test" testPage; HandleFunc "/status" statusPage],
               Panics)
          | Some mux3 =>
              let served :=
                [HandleFunc "/test" testPage; HandleFunc "/status" statusPage;
                 HandleFunc "/ws" (wsConnect cta);
                 ListenAndServe (HTTPServer.Httpaddr m)] in
              match listen with
              | None => (upgrader, mux3, served, Serving)
              | Some err =>
                  (upgrader, mux3, served ++ [LogFatal "HTTPServer: " err], Exits 1)
              end
          end
      end
  end.

End Startup.

(** ** More concrete runs *)

Module Sample.

(** A settings file that maps with an error (a value that is not a number,
    say) and has a [KnownBrothers] section with one server. *)
Definition settings : ini.File Config.Data :=
  ini.mkFile Config.Data
    (fun conf => (Config.set_HTTPaddr "0.0.0.0:80" conf,
                  Some "strconv.ParseInt: parsing x: invalid syntax"))
    (fun name =>
       if bool_decide (name = "KnownBrothers")
       then inl (ini.mkSect {[ "srv2" := "10.0.0.2:8081" ]})
       else inr ("section " +:+ name +:+ " does not exist")).

(** A process started without arguments that finds that file. *)
Definition process : Config.Process :=
  Config.mkProcess [] "/home/go" ∅ (fun _ => inl settings).

End Sample.

(** * Properties *)

(** Induction on the length of a list, for the functions that step over
    more than one element at a time. *)
Lemma length_ind {A : Type} (P : list A -> Prop) :
  (forall s, (forall t, (length t < length s)%nat -> P t) -> P s) ->
  forall s, P s.
Proof.
  intros H.
  assert (forall n s, (length s < n)%nat -> P s) as Hn.
  { induction n as [|n IHn]; intros s Hs; [lia|].
    apply H. intros t Ht. apply IHn. lia. }
  intros s. apply (Hn (S (length s))). lia.
Qed.

(** ** The model on concrete inputs *)

Example normalize_trims_and_joins :
  HTTPServer.normalize
    (bytes_of_string "  hello" ++ [x0d; x0a] ++ bytes_of_string "world"
     ++ [x0d; x0a; x09])
  = bytes_of_string "hello world".
Proof. vm_compute. reflexivity. Qed.

(** A lone ['\r'] or ['\n'] inside a frame stays, a NUL byte is not white
    space, and the Unicode spaces U+00A0, U+200A, U+3000 are trimmed. *)
Example normalize_unicode_and_controls :
  HTTPServer.normalize
    ([xc2; xa0; x00; x0d; x0d; x0a; x0a] ++ bytes_of_string "a"
     ++ [xe2; x80; x8a; xe3; x80; x80])
  = [x00; x0d; x20; x0a] ++ bytes_of_string "a".
Proof. vm_compute. reflexivity. Qed.

(** A frame over the read limit ends the connection: the frames before it
    are dispatched, that frame and the later one are not, the handle is
    closed and the record is sent on [Unregister]. *)
Example oversized_frame_ends_connection :
  HTTPServer.wsConnect Run.manager Run.hub_empty Run.request_peer1 Run.handler
    Run.session3
  = ([HTTPServer.SendRegister Run.client2; HTTPServer.GoWriter Run.client2;
      HTTPServer.SetReadLimit Run.conn2 512;
      HTTPServer.SetReadDeadline Run.conn2 60000001000;
      HTTPServer.SetPongHandler Run.conn2;
      HTTPServer.SetReadDeadline Run.conn2 60000002000;
      HTTPServer.logf clog.Debug "Reader" "PONG! from %s" [clog.AString "peer1"];
      HTTPServer.GoCallToAction Run.client2 (bytes_of_string "ok");
      HTTPServer.Close Run.conn2;
      HTTPServer.SendUnregister Run.client2],
     HTTPServer.Returned).
Proof. vm_compute. reflexivity. Qed.

(** The record built for a handshake that names its user agent. *)
Example user_agent_recorded :
  HTTPServer.registered
    (HTTPServer.wsConnect Run.manager Run.hub_with_peer1 Run.request_peer2
       Run.handler Run.session2).1
  = [HTTPServer.new_client Run.manager Run.conn2 Run.handler "peer2" "Mozilla/5.0"].
Proof. vm_compute. reflexivity. Qed.

(** The outbound pump writes queued messages in the order they were
    enqueued, with a probe in between when the ticker fires, and stops at
    the first failing write. *)
Example Writer_fifo_and_ping :
  HTTPServer.frames_written
    (HTTPServer.Writer Run.client2
       [HTTPServer.Produce (bytes_of_string "A");
        HTTPServer.Produce (bytes_of_string "B");
        HTTPServer.TakeSend 10 None; HTTPServer.TakeTick 20 None;
        HTTPServer.Produce (bytes_of_string "C");
        HTTPServer.TakeSend 30 None; HTTPServer.TakeSend 40 (Some "broken pipe");
        HTTPServer.TakeSend 50 None]).1
  = [(1, bytes_of_string "A"); (9, []); (1, bytes_of_string "B");
     (1, bytes_of_string "C")].
Proof. vm_compute. reflexivity. Qed.

(** [flag.Parse] on the usual forms of a command line. *)
Example Parse_forms :
  flag.Parse {[ "httpaddr" := "localhost:8080" ]} ["--httpaddr"; ":9"; "x"; "-y"]
  = Some {[ "httpaddr" := ":9" ]}
  /\ flag.Parse {[ "httpaddr" := "localhost:8080" ]} ["-httpaddr"] = None
  /\ flag.Parse {[ "httpaddr" := "localhost:8080" ]} ["-port=1"] = None
  /\ flag.Parse {[ "httpaddr" := "localhost:8080" ]} ["--"; "-port=1"]
     = Some {[ "httpaddr" := "localhost:8080" ]}.
Proof. vm_compute. done. Qed.

(** A second call of [Load] in the same process finds the flags defined. *)
Example Load_twice_panics :
  (Config.Load
     (Config.mkProcess [] "/home/go"
        (<["tcpaddr" := "localhost:8081"]> {[ "httpaddr" := "localhost:8080" ]})
        (Config.ini_Load Run.process))).2
  = Config.Panics.
Proof. vm_compute. reflexivity. Qed.

(** ** Replacing line breaks *)

Section ReplaceFacts.

Import Bytes.

Local Abbreviation crlf_to_space s :=
  (Replace s HTTPServer.Newline HTTPServer.Space (-1)).

(** With no limit on the number of replacements, the count plays no role. *)
Lemma replace_from_unlimited old new n m k s :
  n < 0 -> m < 0 ->
  replace_from old new n k s = replace_from old new m k s.
Proof.
  revert n m k. induction s as [|c t IH]; intros n m k Hn Hm; [done|].
  cbn [replace_from]. destruct k as [|k]; [|by apply IH].
  assert ((n =? 0) = false) as -> by lia.
  assert ((m =? 0) = false) as -> by lia.
  cbn [negb andb]. destruct (HasPrefix (c :: t) old).
  - f_equal. apply IH; lia.
  - f_equal. by apply IH.
Qed.

Lemma HasPrefix_Newline c t :
  HasPrefix (c :: t) HTTPServer.Newline = true <->
  c = x0d /\ exists t', t = x0a :: t'.
Proof.
  unfold HTTPServer.Newline. cbn [HasPrefix]. destruct t as [|d t'].
  - rewrite andb_false_r. split; [done|]. intros [_ [? ?]]; done.
  - cbn [HasPrefix]. rewrite andb_true_r, andb_true_iff, !bool_decide_eq_true.
    split; [intros [-> ->]; eauto | intros [-> [? [= -> ->]]]; done].
Qed.

Lemma Replace_nil : crlf_to_space [] = [].
Proof. done. Qed.

(** A line break at the head becomes one space. *)
Lemma Replace_crlf t :
  crlf_to_space (x0d :: x0a :: t) = x20 :: crlf_to_space t.
Proof.
  unfold Replace. cbn [replace_from].
  assert (HasPrefix (x0d :: x0a :: t) HTTPServer.Newline = true) as ->
    by (apply HasPrefix_Newline; eauto).
  change (negb (-1 =? 0) && true) with true. cbv iota.
  unfold HTTPServer.Space, HTTPServer.Newline.
  cbn [app length Nat.pred replace_from]. f_equal.
  apply replace_from_unlimited; lia.
Qed.

(** A byte that does not start a line break is copied. *)
Lemma Replace_copy c t :
  HasPrefix (c :: t) HTTPServer.Newline = false ->
  crlf_to_space (c :: t) = c :: crlf_to_space t.
Proof.
  intros H. unfold Replace. cbn [replace_from].
  rewrite H. done.
Qed.

Lemma Replace_copy_ne c t :
  c <> x0d -> crlf_to_space (c :: t) = c :: crlf_to_space t.
Proof.
  intros Hc. apply Replace_copy.
  destruct (HasPrefix (c :: t) HTTPServer.Newline) eqn:E; [|done].
  apply HasPrefix_Newline in E as [? _]. done.
Qed.

Lemma Replace_copy_last c : crlf_to_space [c] = [c].
Proof.
  apply Replace_copy.
  destruct (HasPrefix [c] HTTPServer.Newline) eqn:E; [|done].
  apply HasPrefix_Newline in E as [_ [? ?]]. done.
Qed.

(** The three equations above decide [Replace] on every input. *)
Lemma Replace_cases s :
  (s = [] /\ crlf_to_space s = [])
  \/ (exists t, s = x0d :: x0a :: t /\ crlf_to_space s = x20 :: crlf_to_space t)
  \/ (exists c t, s = c :: t /\ HasPrefix s HTTPServer.Newline = false
                  /\ crlf_to_space s = c :: crlf_to_space t).
Proof.
  destruct s as [|c t]; [by left|]. right.
  destruct (HasPrefix (c :: t) HTTPServer.Newline) eqn:E.
  - left. apply HasPrefix_Newline in E as [-> [t' ->]].
    exists t'. split; [done|]. apply Replace_crlf.
  - right. exists c, t. split_and!; [done..|]. by apply Replace_copy.
Qed.

Lemma Replace_head_lf t u :
  crlf_to_space t = x0a :: u -> exists t', t = x0a :: t'.
Proof.
  destruct (Replace_cases t) as [[-> E]|[(t' & -> & E)|(c & t' & -> & _ & E)]];
    rewrite E; [done..|].
  intros [= -> _]. eauto.
Qed.

(** No line break is left. *)
Lemma Replace_no_Newline s :
  Contains (crlf_to_space s) HTTPServer.Newline = false.
Proof.
  induction s as [s IH] using length_ind.
  destruct (Replace_cases s) as [[-> E]|[(t & -> & E)|(c & t & -> & Hc & E)]];
    rewrite E.
  - done.
  - cbn [Contains]. rewrite (IH t) by (cbn; lia).
    rewrite orb_false_r.
    destruct (HasPrefix _ _) eqn:P; [|done].
    apply HasPrefix_Newline in P as [? _]. done.
  - cbn [Contains]. rewrite (IH t) by (cbn; lia).
    rewrite orb_false_r.
    destruct (HasPrefix (c :: crlf_to_space t) _) eqn:P; [|done].
    apply HasPrefix_Newline in P as [-> [u Hu]].
    apply Replace_head_lf in Hu as [t' ->].
    rewrite <- Hc. symmetry. apply HasPrefix_Newline. eauto.
Qed.

(** Every line break becomes exactly one space: the replacement
    distributes over any occurrence. *)
Lemma Replace_app_Newline a b :
  crlf_to_space (a ++ HTTPServer.Newline ++ b)
  = crlf_to_space a ++ HTTPServer.Space ++ crlf_to_space b.
Proof.
  induction a as [a IH] using length_ind.
  destruct (Replace_cases a) as [[-> E]|[(t & -> & E)|(c & t & -> & Hc & E)]];
    rewrite E.
  - apply Replace_crlf.
  - cbn [app]. rewrite Replace_crlf. f_equal. apply IH. cbn; lia.
  - cbn [app]. rewrite <- (IH t) by (cbn; lia).
    apply Replace_copy.
    destruct (HasPrefix (c :: t ++ _) _) eqn:P; [|done].
    apply HasPrefix_Newline in P as [-> [u Hu]].
    rewrite <- Hc. symmetry. apply HasPrefix_Newline. split; [done|].
    destruct t as [|d t']; [done|]. injection Hu as -> _. eauto.
Qed.

(** What holds no line break is left as it is. *)
Lemma Replace_id s :
  Contains s HTTPServer.Newline = false -> crlf_to_space s = s.
Proof.
  induction s as [|c t IH]; [done|].
  cbn [Contains]. intros [P Q]%orb_false_iff.
  rewrite Replace_copy by done. f_equal. by apply IH.
Qed.

End ReplaceFacts.

(** ** Trimming white space *)

Section TrimFacts.

Import Bytes.

Lemma space2_inv b1 b2 :
  space2 b1 b2 = true ->
  b1 = xc2 /\ (b2 = x85 \/ b2 = xa0).
Proof.
  unfold space2.
  rewrite andb_true_iff, orb_true_iff, !bool_decide_eq_true. done.
Qed.

Lemma space3_inv b1 b2 b3 :
  space3 b1 b2 b3 = true ->
  (b1 = xe1 \/ b1 = xe2 \/ b1 = xe3) /\ (128 <= Byte.to_N b2)%N
  /\ (128 <= Byte.to_N b3)%N.
Proof.
  unfold space3.
  rewrite !orb_true_iff, !andb_true_iff, !orb_true_iff, !andb_true_iff,
    !bool_decide_eq_true, N.leb_le.
  intros H.
  repeat match goal with
         | H : _ \/ _ |- _ => destruct H
         | H : _ /\ _ |- _ => destruct H
         end; subst; split_and!; eauto; try done; by apply N.leb_le.
Qed.

Lemma asciiSpace_low b : asciiSpace b = true -> (Byte.to_N b < 128)%N.
Proof.
  unfold asciiSpace. rewrite !orb_true_iff, !bool_decide_eq_true.
  intros H.
  repeat match goal with H : _ \/ _ |- _ => destruct H end; subst; done.
Qed.

Lemma high_not_ascii b : (128 <= Byte.to_N b)%N -> asciiSpace b = false.
Proof.
  intros H. destruct (asciiSpace b) eqn:E; [|done].
  apply asciiSpace_low in E. lia.
Qed.

Lemma high_not_cr b : (128 <= Byte.to_N b)%N -> b <> x0d.
Proof. intros H ->. vm_compute in H. done. Qed.

Lemma space2_high b1 b2 :
  space2 b1 b2 = true -> (128 <= Byte.to_N b1)%N /\ (128 <= Byte.to_N b2)%N.
Proof. intros [-> [-> | ->]]%space2_inv; done. Qed.

Lemma space3_not_space2 b1 b2 b3 :
  space3 b1 b2 b3 = true -> space2 b1 b2 = false.
Proof.
  intros [H _]%space3_inv. unfold space2.
  destruct H as [-> | [-> | ->]]; done.
Qed.

Lemma space3_high b1 b2 b3 :
  space3 b1 b2 b3 = true ->
  (128 <= Byte.to_N b1)%N /\ (128 <= Byte.to_N b2)%N /\ (128 <= Byte.to_N b3)%N.
Proof.
  intros (H & ? & ?)%space3_inv. split_and!; [|done..].
  destruct H as [-> | [-> | ->]]; done.
Qed.

(** The equations of [TrimLeftSpace] on a leading white space rune. *)
Lemma TrimLeftSpace_ascii b s :
  asciiSpace b = true -> TrimLeftSpace (b :: s) = TrimLeftSpace s.
Proof. intros H. cbn [TrimLeftSpace]. by rewrite H. Qed.

Lemma TrimLeftSpace_two b1 b2 s :
  space2 b1 b2 = true -> TrimLeftSpace (b1 :: b2 :: s) = TrimLeftSpace s.
Proof.
  intros H. cbn [TrimLeftSpace].
  destruct (space2_high _ _ H) as [H1 _].
  by rewrite (high_not_ascii _ H1), H.
Qed.

Lemma TrimLeftSpace_three b1 b2 b3 s :
  space3 b1 b2 b3 = true ->
  TrimLeftSpace (b1 :: b2 :: b3 :: s) = TrimLeftSpace s.
Proof.
  intros H. cbn [TrimLeftSpace].
  destruct (space3_high _ _ _ H) as [H1 _].
  by rewrite (high_not_ascii _ H1), (space3_not_space2 _ _ _ H), H.
Qed.

Lemma TrimLeftSpace_Blank ws s :
  Blank ws -> TrimLeftSpace (ws ++ s) = TrimLeftSpace s.
Proof.
  induction 1 as [|b ws Hb _ IH|b1 b2 ws Hb _ IH|b1 b2 b3 ws Hb _ IH];
    cbn [app]; [done|..].
  - by rewrite TrimLeftSpace_ascii.
  - by rewrite TrimLeftSpace_two.
  - by rewrite TrimLeftSpace_three.
Qed.

Lemma Blank_app a b : Blank a -> Blank b -> Blank (a ++ b).
Proof. induction 1; intros; cbn [app]; eauto using Blank. Qed.

(** What [TrimLeftSpace] slices off is a run of white space, and what it
    leaves does not start with white space. *)
Lemma TrimLeftSpace_split s :
  exists ws, Blank ws /\ s = ws ++ TrimLeftSpace s
             /\ starts_with_space (TrimLeftSpace s) = false.
Proof.
  induction s as [s IH] using length_ind.
  destruct s as [|b1 t1]; [exists []; split_and!; [apply Blank_nil|done..]|].
  destruct (asciiSpace b1) eqn:E1.
  { destruct (IH t1) as (ws & Hws & Heq & Hst); [cbn; lia|].
    exists (b1 :: ws). rewrite TrimLeftSpace_ascii by done.
    split_and!; [by constructor| by cbn [app]; f_equal | done]. }
  destruct t1 as [|b2 t2].
  { exists []. do 2 (cbn [TrimLeftSpace starts_with_space app orb]; rewrite ?E1).
    split_and!; [apply Blank_nil|done..]. }
  destruct (space2 b1 b2) eqn:E2.
  { destruct (IH t2) as (ws & Hws & Heq & Hst); [cbn; lia|].
    exists (b1 :: b2 :: ws). rewrite TrimLeftSpace_two by done.
    split_and!; [by constructor| by cbn [app]; do 2 f_equal | done]. }
  destruct t2 as [|b3 t3].
  { exists [].
    do 2 (cbn [TrimLeftSpace starts_with_space app orb]; rewrite ?E1, ?E2).
    split_and!; [apply Blank_nil|done..]. }
  destruct (space3 b1 b2 b3) eqn:E3.
  { destruct (IH t3) as (ws & Hws & Heq & Hst); [cbn; lia|].
    exists (b1 :: b2 :: b3 :: ws). rewrite TrimLeftSpace_three by done.
    split_and!; [by constructor| by cbn [app]; do 3 f_equal | done]. }
  exists [].
  do 2 (cbn [TrimLeftSpace starts_with_space app orb]; rewrite ?E1, ?E2, ?E3).
  split_and!; [apply Blank_nil|done..].
Qed.

(** The same for the trailing side, on the reversed slice. *)
Lemma trim_rev_space_split r :
  exists ws, Blank (rev ws) /\ r = ws ++ trim_rev_space r
             /\ rev_starts_with_space (trim_rev_space r) = false.
Proof.
  induction r as [r IH] using length_ind.
  destruct r as [|b1 t1]; [exists []; split_and!; [apply Blank_nil|done..]|].
  destruct (asciiSpace b1) eqn:E1.
  { destruct (IH t1) as (ws & Hws & Heq & Hst); [cbn; lia|].
    exists (b1 :: ws). cbn [trim_rev_space]. rewrite E1. split_and!; [| |done].
    - cbn [rev]. apply Blank_app; [done|]. by repeat constructor.
    - by cbn [app]; f_equal. }
  destruct t1 as [|b2 t2].
  { exists [].
    do 2 (cbn [trim_rev_space rev_starts_with_space app orb]; rewrite ?E1).
    split_and!; [apply Blank_nil|done..]. }
  destruct (space2 b2 b1) eqn:E2.
  { destruct (IH t2) as (ws & Hws & Heq & Hst); [cbn; lia|].
    exists (b1 :: b2 :: ws). cbn [trim_rev_space]. rewrite E1, E2.
    split_and!; [| |done].
    - cbn [rev]. rewrite <- app_assoc. apply Blank_app; [done|].
      apply Blank_two; [done|constructor].
    - by cbn [app]; do 2 f_equal. }
  destruct t2 as [|b3 t3].
  { exists [].
    do 2 (cbn [trim_rev_space rev_starts_with_space app orb]; rewrite ?E1, ?E2).
    split_and!; [apply Blank_nil|done..]. }
  destruct (space3 b3 b2 b1) eqn:E3.
  { destruct (IH t3) as (ws & Hws & Heq & Hst); [cbn; lia|].
    exists (b1 :: b2 :: b3 :: ws). cbn [trim_rev_space]. rewrite E1, E2, E3.
    split_and!; [| |done].
    - cbn [rev]. rewrite <- !app_assoc. apply Blank_app; [done|].
      apply Blank_three; [done|constructor].
    - by cbn [app]; do 3 f_equal. }
  exists [].
  do 2 (cbn [trim_rev_space rev_starts_with_space app orb];
        rewrite ?E1, ?E2, ?E3).
  split_and!; [apply Blank_nil|done..].
Qed.

(** What [TrimRightSpace] slices off is a run of white space, and what it
    leaves does not end with white space. *)
Lemma TrimRightSpace_split s :
  exists ws, Blank ws /\ s = TrimRightSpace s ++ ws
             /\ ends_with_space (TrimRightSpace s) = false.
Proof.
  destruct (trim_rev_space_split (rev s)) as (ws & Hws & Heq & Hst).
  exists (rev ws). unfold TrimRightSpace, ends_with_space.
  rewrite rev_involutive. split_and!; [done| |done].
  rewrite <- rev_app_distr, <- Heq. by rewrite rev_involutive.
Qed.

(** A slice that does not start with white space has no prefix that
    does. *)
Lemma starts_with_space_prefix p q :
  starts_with_space (p ++ q) = false -> starts_with_space p = false.
Proof.
  destruct p as [|b1 [|b2 [|b3 p]]]; cbn [app starts_with_space]; [done|..].
  - intros [-> _]%orb_false_iff. done.
  - intros [-> [-> _]%orb_false_iff]%orb_false_iff. done.
  - done.
Qed.

(** [TrimSpace] removes a run of white space on each side and leaves a
    slice with white space on neither. *)
Lemma TrimSpace_split s :
  exists pre suf,
    Blank pre /\ Blank suf /\ s = pre ++ TrimSpace s ++ suf
    /\ starts_with_space (TrimSpace s) = false
    /\ ends_with_space (TrimSpace s) = false.
Proof.
  destruct (TrimLeftSpace_split s) as (pre & Hpre & Hs & Hst).
  destruct (TrimRightSpace_split (TrimLeftSpace s)) as (suf & Hsuf & Ht & Hen).
  exists pre, suf. unfold TrimSpace. split_and!; [done..| | |done].
  - by rewrite <- Ht.
  - rewrite Ht in Hst. by apply starts_with_space_prefix in Hst.
Qed.

(** An empty result has nothing to trim. *)
Lemma TrimSpace_nil : TrimSpace [] = [].
Proof. done. Qed.

End TrimFacts.

(** ** The frame normalisation of the inbound pump *)

Section NormalizeFacts.

Import Bytes HTTPServer.

(** Leading white space does not survive: a white space byte before a
    frame changes nothing in what is left after the line breaks are
    replaced and the head is trimmed. *)
Lemma TrimLeftSpace_Replace_ascii b s :
  asciiSpace b = true ->
  TrimLeftSpace (Replace (b :: s) Newline Space (-1))
  = TrimLeftSpace (Replace s Newline Space (-1)).
Proof.
  intros Hb.
  destruct (HasPrefix (b :: s) Newline) eqn:P.
  - apply HasPrefix_Newline in P as [-> [t ->]].
    rewrite Replace_crlf, (Replace_copy_ne x0a) by done.
    by rewrite !TrimLeftSpace_ascii.
  - rewrite Replace_copy by done. by rewrite TrimLeftSpace_ascii.
Qed.

Lemma TrimLeftSpace_Replace_Blank ws s :
  Blank ws ->
  TrimLeftSpace (Replace (ws ++ s) Newline Space (-1))
  = TrimLeftSpace (Replace s Newline Space (-1)).
Proof.
  induction 1 as [|b ws Hb _ IH|b1 b2 ws Hb _ IH|b1 b2 b3 ws Hb _ IH];
    cbn [app]; [done|..].
  - by rewrite TrimLeftSpace_Replace_ascii.
  - destruct (space2_high _ _ Hb) as [H1 H2].
    rewrite !Replace_copy_ne by by apply high_not_cr.
    by rewrite TrimLeftSpace_two.
  - destruct (space3_high _ _ _ Hb) as (H1 & H2 & H3).
    rewrite !Replace_copy_ne by by apply high_not_cr.
    by rewrite TrimLeftSpace_three.
Qed.

Lemma normalize_Blank ws s : Blank ws -> normalize (ws ++ s) = normalize s.
Proof.
  intros H. unfold normalize, TrimSpace.
  by rewrite TrimLeftSpace_Replace_Blank.
Qed.

End NormalizeFacts.

(** ** Traces *)

Section TraceFacts.

Import HTTPServer.

Lemma emit_andThen es o : emit es ;> o = (es ++ o.1, o.2).
Proof. done. Qed.

Lemma andThen_Returned tr o : (tr, Returned) ;> o = (tr ++ o.1, o.2).
Proof. done. Qed.

Lemma andThen_Blocked tr o : (tr, Blocked) ;> o = (tr, Blocked).
Proof. done. Qed.

Lemma andThen_trace o k :
  (o ;> k).1 = o.1 ++ (if decide (o.2 = Returned) then k.1 else []).
Proof.
  destruct o as [tr []]; unfold andThen; cbn; by rewrite ?app_nil_r.
Qed.

Lemma dispatched_app a b : dispatched (a ++ b) = dispatched a ++ dispatched b.
Proof. apply omap_app. Qed.

Lemma registered_app a b : registered (a ++ b) = registered a ++ registered b.
Proof. apply omap_app. Qed.

Lemma unregistered_app a b :
  unregistered (a ++ b) = unregistered a ++ unregistered b.
Proof. apply omap_app. Qed.

Lemma writers_started_app a b :
  writers_started (a ++ b) = writers_started a ++ writers_started b.
Proof. apply omap_app. Qed.

End TraceFacts.

(** ** The inbound pump *)

Section ReaderFacts.

Import HTTPServer.

Variables (c : Hub.Client) (conn : websocket.Conn).

(** The loop is left exactly when a read fails. *)
Lemma Reader_loop_status limit input :
  (Reader_loop c conn limit input).2
  = if existsb (read_fails limit) input then Returned else Blocked.
Proof.
  induction input as [|[payload|now app|err] rest IH]; cbn [Reader_loop existsb read_fails].
  - done.
  - destruct (_ >? _); [done|]. by rewrite emit_andThen.
  - by rewrite emit_andThen.
  - done.
Qed.

(** The handler is started once for each message read, with the
    normalised payload, in order. *)
Lemma Reader_loop_dispatched limit input :
  dispatched (Reader_loop c conn limit input).1
  = map (fun message => (c, normalize message)) (received limit input).
Proof.
  induction input as [|[payload|now app|err] rest IH]; cbn [Reader_loop received read_fails].
  - done.
  - destruct (_ >? _); [done|]. rewrite emit_andThen. cbn [fst].
    by rewrite dispatched_app, IH.
  - rewrite emit_andThen. cbn [fst]. by rewrite dispatched_app, IH.
  - done.
Qed.

(** The loop sends nothing to the hub and starts no pump. *)
Lemma Reader_loop_hub_silent limit input :
  registered (Reader_loop c conn limit input).1 = []
  /\ unregistered (Reader_loop c conn limit input).1 = []
  /\ writers_started (Reader_loop c conn limit input).1 = [].
Proof.
  induction input as [|[payload|now app|err] rest IH]; cbn [Reader_loop].
  - done.
  - destruct (_ >? _); [done|]. by rewrite emit_andThen.
  - by rewrite emit_andThen.
  - done.
Qed.

(** The loop does not enter a pump again. *)
Lemma Reader_loop_no_entry limit input :
  readers_entered (Reader_loop c conn limit input).1 = [].
Proof.
  unfold readers_entered.
  induction input as [|[payload|now app|err] rest IH]; cbn [Reader_loop].
  - done.
  - destruct (_ >? _); [done|]. rewrite emit_andThen. cbn [fst].
    by rewrite omap_app, IH.
  - rewrite emit_andThen. cbn [fst]. by rewrite omap_app, IH.
  - done.
Qed.

(** Nothing is read past a failing read. *)
Lemma received_fails limit pre i rest :
  read_fails limit i = true ->
  received limit (pre ++ i :: rest) = received limit pre.
Proof.
  intros Hi. induction pre as [|j pre IH]; cbn [app received].
  - by rewrite Hi.
  - destruct (read_fails limit j); [done|]. destruct j; by rewrite ?IH.
Qed.

Hypothesis Hconn : Hub.Conn c = Hub.WebSocket conn.

(** [Reader] in full: the three settings, the loop, and the deferred
    [Close] when the loop is left. *)
Lemma Reader_unfold now input :
  Reader c now input
  = ([SetReadLimit conn maxMessageSize; SetReadDeadline conn (now + pongWait);
      SetPongHandler conn]
     ++ (Reader_loop c conn maxMessageSize input).1
     ++ (if existsb (read_fails maxMessageSize) input then [Close conn] else []),
     if existsb (read_fails maxMessageSize) input then Returned else Blocked).
Proof.
  unfold Reader. rewrite Hconn, emit_andThen.
  pose proof (Reader_loop_status maxMessageSize input) as Hst.
  destruct (Reader_loop c conn maxMessageSize input) as [tr st].
  cbn [snd fst] in *. subst st.
  destruct (existsb _ _); unfold andThen; cbn; by rewrite ?app_nil_r.
Qed.

Lemma Reader_dispatched now input :
  dispatched (Reader c now input).1
  = map (fun message => (c, normalize message)) (received maxMessageSize input).
Proof.
  rewrite Reader_unfold. cbn [fst].
  rewrite !dispatched_app, Reader_loop_dispatched.
  destruct (existsb _ _); cbn; by rewrite app_nil_r.
Qed.

End ReaderFacts.

(** C4.  Every frame the inbound pump reads without error is dispatched
    exactly once, in order, to the action handler with the peer record and the
    normalised payload; a frame on which the read fails, and whatever follows
    it, is never dispatched.  The normalised payload is the frame with every
    line break ["\r\n"] replaced by one space (the replacement distributes
    over each occurrence and leaves none), from which a run of white space was
    trimmed at the end (and at the head), so that it ends with no white
    space. *)
Theorem Reader_dispatches_each_frame_normalized
    (c : Hub.Client) (conn : websocket.Conn) (now : Time)
    (input : list HTTPServer.Inbound) :
  Hub.Conn c = Hub.WebSocket conn ->
  HTTPServer.dispatched (HTTPServer.Reader c now input).1
  = map (fun message => (c, HTTPServer.normalize message))
        (HTTPServer.received HTTPServer.maxMessageSize input)
  /\ (forall pre i rest,
        input = pre ++ i :: rest ->
        HTTPServer.read_fails HTTPServer.maxMessageSize i = true ->
        HTTPServer.dispatched (HTTPServer.Reader c now input).1
        = map (fun message => (c, HTTPServer.normalize message))
              (HTTPServer.received HTTPServer.maxMessageSize pre))
  /\ (forall message,
        let replaced :=
          Bytes.Replace message HTTPServer.Newline HTTPServer.Space (-1) in
        (forall a b,
            message = a ++ HTTPServer.Newline ++ b ->
            replaced
            = Bytes.Replace a HTTPServer.Newline HTTPServer.Space (-1)
              ++ HTTPServer.Space
              ++ Bytes.Replace b HTTPServer.Newline HTTPServer.Space (-1))
        /\ (Bytes.Contains message HTTPServer.Newline = false ->
            replaced = message)
        /\ Bytes.Contains replaced HTTPServer.Newline = false
        /\ (exists pre suf,
              Bytes.Blank pre /\ Bytes.Blank suf
              /\ replaced = pre ++ HTTPServer.normalize message ++ suf)
        /\ Bytes.ends_with_space (HTTPServer.normalize message) = false).
Proof.
  intros Hconn. split_and!.
  - by apply (Reader_dispatched c conn).
  - intros pre i rest -> Hi.
    rewrite (Reader_dispatched _ _ Hconn). by rewrite received_fails.
  - intros message replaced. split_and!.
    + intros a b ->. apply Replace_app_Newline.
    + apply Replace_id.
    + apply Replace_no_Newline.
    + destruct (TrimSpace_split replaced) as (pre & suf & ? & ? & ? & _).
      by exists pre, suf.
    + destruct (TrimSpace_split replaced) as (_ & _ & _ & _ & _ & _ & H).
      exact H.
Qed.

Lemma Reader_dispatches_each_frame_normalized_witness :
  Hub.Conn Run.client2 = Hub.WebSocket Run.conn2
  /\ HTTPServer.dispatched
       (HTTPServer.Reader Run.client2 1000 (HTTPServer.inbound Run.session2)).1
     = [(Run.client2, bytes_of_string "hello world")].
Proof.
  split; [reflexivity|].
  destruct (Reader_dispatches_each_frame_normalized
              Run.client2 Run.conn2 1000 (HTTPServer.inbound Run.session2)
              eq_refl) as [H _].
  rewrite H. vm_compute. reflexivity.
Defined.

(** C9, amended.  The normalisation also removes leading white space: a
    frame that starts with a run of white space (blanks, tabs, the
    line-break control characters, Unicode spaces) is dispatched with the
    payload of the frame without that run, and no dispatched payload starts
    with white space. *)
Theorem Reader_strips_leading_blanks
    (c : Hub.Client) (conn : websocket.Conn) (now : Time)
    (ws rest : bytes) (input : list HTTPServer.Inbound) :
  Hub.Conn c = Hub.WebSocket conn ->
  Bytes.Blank ws ->
  Z.of_nat (length (ws ++ rest)) <= HTTPServer.maxMessageSize ->
  HTTPServer.dispatched
    (HTTPServer.Reader c now (HTTPServer.Frame (ws ++ rest) :: input)).1
  = (c, HTTPServer.normalize rest)
    :: HTTPServer.dispatched (HTTPServer.Reader c now input).1
  /\ HTTPServer.normalize (ws ++ rest) = HTTPServer.normalize rest
  /\ Bytes.starts_with_space (HTTPServer.normalize (ws ++ rest)) = false.
Proof.
  intros Hconn Hws Hlen.
  assert (HTTPServer.normalize (ws ++ rest) = HTTPServer.normalize rest) as Hn
    by by apply normalize_Blank.
  split_and!; [|done|].
  - rewrite !(Reader_dispatched _ _ Hconn).
    cbn [HTTPServer.received HTTPServer.read_fails].
    assert ((Z.of_nat (length (ws ++ rest)) >? HTTPServer.maxMessageSize) = false)
      as -> by lia.
    cbn [map]. by rewrite Hn.
  - unfold HTTPServer.normalize.
    destruct (TrimSpace_split
                (Bytes.Replace (ws ++ rest) HTTPServer.Newline HTTPServer.Space (-1)))
      as (_ & _ & _ & _ & _ & H & _).
    exact H.
Qed.

Lemma Reader_strips_leading_blanks_witness :
  HTTPServer.dispatched
    (HTTPServer.Reader Run.client2 1000
       [HTTPServer.Frame ([x20; x09; x0d; x0a] ++ bytes_of_string "ping")]).1
  = [(Run.client2, bytes_of_string "ping")].
Proof.
  destruct (Reader_strips_leading_blanks
              Run.client2 Run.conn2 1000 [x20; x09; x0d; x0a]
              (bytes_of_string "ping") [] eq_refl) as [H _].
  - repeat (apply Bytes.Blank_ascii; [reflexivity|]). apply Bytes.Blank_nil.
  - vm_compute. discriminate.
  - rewrite H. vm_compute. reflexivity.
Defined.

(** C9, as stated, fails for the control characters that are not white
    space: a frame that starts with a NUL byte is dispatched with the NUL
    still in front, as [bytes.TrimSpace] leaves it (and so for ESC, DEL and
    the other control bytes outside ['\t'] .. ['\r']). *)
Lemma Reader_keeps_leading_control_bytes :
  ~ (forall (c : Hub.Client) (conn : websocket.Conn) (now : Time)
            (lead rest : bytes) (input : list HTTPServer.Inbound),
        Hub.Conn c = Hub.WebSocket conn ->
        Forall (fun b => Bytes.asciiSpace b = true
                         \/ (Byte.to_N b < 32)%N \/ b = x7f) lead ->
        Z.of_nat (length (lead ++ rest)) <= HTTPServer.maxMessageSize ->
        HTTPServer.dispatched
          (HTTPServer.Reader c now (HTTPServer.Frame (lead ++ rest) :: input)).1
        = (c, HTTPServer.normalize rest)
          :: HTTPServer.dispatched (HTTPServer.Reader c now input).1).
Proof.
  intros H.
  specialize (H Run.client2 Run.conn2 1000 [x00] [x41] [] eq_refl).
  assert (HTTPServer.dispatched
            (HTTPServer.Reader Run.client2 1000
               [HTTPServer.Frame ([x00] ++ [x41])]).1
          = [(Run.client2, [x00; x41])]) as Hrun
    by (vm_compute; reflexivity).
  rewrite Hrun in H.
  assert ([(Run.client2, [x00; x41])]
          = (Run.client2, HTTPServer.normalize [x41])
            :: HTTPServer.dispatched (HTTPServer.Reader Run.client2 1000 []).1)
    as Heq.
  { apply H.
    - constructor; [|constructor]. right. left. reflexivity.
    - vm_compute. discriminate. }
  vm_compute in Heq. discriminate.
Qed.

(** ** Registration *)

Section RegistrationFacts.

Import HTTPServer.

Variables (m : Manager) (h : Hub.State) (r : Request)
          (cta : Hub.CallToActionFunc) (s : Session).

(** The refusal of a duplicate: one warning, and the call returns. *)
Lemma wsConnect_duplicate httpconn name rest :
  Upgrade s = inl httpconn ->
  Header r !! "Sec-Websocket-Key" = Some (name :: rest) ->
  Hub.UserExists h name Hub.ClientUser = true ->
  wsConnect m h r cta s
  = emit [logf clog.Warn "wsConnect"
            "Client %s already exists ... Refusing connection"
            [clog.AString name]].
Proof. intros Hu Hk He. unfold wsConnect. by rewrite Hu, Hk, He. Qed.

(** A connection that passes the duplicate check: the record is sent on
    [Register], the outbound pump is started, the inbound pump runs, and
    when it returns the record is sent on [Unregister]. *)
Lemma wsConnect_registers httpconn name rest :
  Upgrade s = inl httpconn ->
  Header r !! "Sec-Websocket-Key" = Some (name :: rest) ->
  Hub.UserExists h name Hub.ClientUser = false ->
  let client := new_client m httpconn cta name (user_agent r) in
  wsConnect m h r cta s
  = emit [SendRegister client; GoWriter client]
    ;> Reader client (reader_start s) (inbound s)
    ;> emit [SendUnregister client].
Proof. intros Hu Hk He. unfold wsConnect. by rewrite Hu, Hk, He. Qed.

(** The same run, event by event. *)
Lemma wsConnect_registers_trace httpconn name rest :
  Upgrade s = inl httpconn ->
  Header r !! "Sec-Websocket-Key" = Some (name :: rest) ->
  Hub.UserExists h name Hub.ClientUser = false ->
  let client := new_client m httpconn cta name (user_agent r) in
  let fails := existsb (read_fails maxMessageSize) (inbound s) in
  wsConnect m h r cta s
  = ([SendRegister client; GoWriter client;
      SetReadLimit httpconn maxMessageSize;
      SetReadDeadline httpconn (reader_start s + pongWait);
      SetPongHandler httpconn]
     ++ (Reader_loop client httpconn maxMessageSize (inbound s)).1
     ++ (if fails then [Close httpconn; SendUnregister client] else []),
     if fails then Returned else Blocked).
Proof.
  intros Hu Hk He client fails.
  rewrite (wsConnect_registers _ _ _ Hu Hk He). fold client.
  rewrite (Reader_unfold client httpconn eq_refl), emit_andThen.
  fold fails. destruct fails; unfold andThen; cbn [fst snd app].
  - do 5 f_equal. by rewrite <- !app_assoc.
  - by rewrite app_nil_r.
Qed.

(** A record appears on [Register] only on that path. *)
Lemma wsConnect_registered_inv client :
  client ∈ registered (wsConnect m h r cta s).1 ->
  exists httpconn name rest,
    Upgrade s = inl httpconn
    /\ Header r !! "Sec-Websocket-Key" = Some (name :: rest)
    /\ Hub.UserExists h name Hub.ClientUser = false
    /\ client = new_client m httpconn cta name (user_agent r).
Proof.
  destruct (Upgrade s) as [httpconn|err] eqn:Hu.
  2: { unfold wsConnect. rewrite Hu. cbn. by intros ?%elem_of_nil. }
  destruct (Header r !! "Sec-Websocket-Key") as [[|name rest]|] eqn:Hk.
  1,3: unfold wsConnect; rewrite Hu, Hk; cbn; by intros ?%elem_of_nil.
  destruct (Hub.UserExists h name Hub.ClientUser) eqn:He.
  { rewrite (wsConnect_duplicate _ _ _ Hu Hk He). cbn.
    by intros ?%elem_of_nil. }
  rewrite (wsConnect_registers_trace _ _ _ Hu Hk He). cbn [fst].
  rewrite (registered_app [_; _; _; _; _]), registered_app.
  destruct (Reader_loop_hub_silent
              (new_client m httpconn cta name (user_agent r)) httpconn
              maxMessageSize (inbound s)) as (-> & _ & _).
  destruct (existsb _ _); cbn; intros ->%list_elem_of_singleton; eauto 10.
Qed.

End RegistrationFacts.

(** C1.  On a connection whose identity is already registered as a User,
    [wsConnect] logs the refusal and returns: no record is built or sent to
    the Directory and no pump is started, but the transport handle is not
    closed either.  Here the second handshake with key ["peer1"] while
    ["peer1"] is in [Users]. *)
Theorem wsConnect_duplicate_leaves_handle_open :
  Hub.UserExists Run.hub_with_peer1 "peer1" Hub.ClientUser = true
  /\ HTTPServer.wsConnect Run.manager Run.hub_with_peer1 Run.request_peer1
       Run.handler Run.session2
     = ([HTTPServer.logf clog.Warn "wsConnect"
           "Client %s already exists ... Refusing connection"
           [clog.AString "peer1"]],
        HTTPServer.Returned)
  /\ HTTPServer.closed
       (HTTPServer.wsConnect Run.manager Run.hub_with_peer1 Run.request_peer1
          Run.handler Run.session2).1 = []
  /\ HTTPServer.registered
       (HTTPServer.wsConnect Run.manager Run.hub_with_peer1 Run.request_peer1
          Run.handler Run.session2).1 = [].
Proof. vm_compute. done. Qed.

(** C2, as stated, fails: with a Directory in which every ceiling is zero,
    [Admit] rejects the record for capacity, and [wsConnect] still starts the
    outbound pump and runs the inbound pump, which dispatches the frame that
    arrives. *)
Lemma wsConnect_starts_pumps_when_Admit_rejects :
  ~ (forall (ceiling : Hub.ClientType -> nat) m h r cta s client,
        client ∈ HTTPServer.registered (HTTPServer.wsConnect m h r cta s).1 ->
        Hub.Admit ceiling h client = Hub.RejectedCapacity ->
        HTTPServer.writers_started (HTTPServer.wsConnect m h r cta s).1 = []
        /\ HTTPServer.readers_entered (HTTPServer.wsConnect m h r cta s).1 = []).
Proof.
  intros H.
  destruct (H Run.no_room Run.manager Run.hub_empty Run.request_peer1
              Run.handler Run.session2 Run.client2) as [Hw _].
  - vm_compute. apply list_elem_of_here.
  - vm_compute. reflexivity.
  - vm_compute in Hw. discriminate.
Qed.

(** C2, amended.  For every connection that passes the duplicate check,
    [wsConnect] sends the record on [Register] and then, without reading any
    admission result, starts the outbound pump and enters the inbound pump, in
    that order; this is so whatever [Admit] decides for the record.  The
    transport handle is closed by the inbound pump when it exits. *)
Theorem wsConnect_starts_pumps_after_submission
    (ceiling : Hub.ClientType -> nat) (verdict : Hub.Verdict)
    (m : HTTPServer.Manager) (h : Hub.State) (r : HTTPServer.Request)
    (cta : Hub.CallToActionFunc) (s : HTTPServer.Session)
    (httpconn : websocket.Conn) (name : string) (rest : list string) :
  HTTPServer.Upgrade s = inl httpconn ->
  HTTPServer.Header r !! "Sec-Websocket-Key" = Some (name :: rest) ->
  Hub.UserExists h name Hub.ClientUser = false ->
  let client := HTTPServer.new_client m httpconn cta name (HTTPServer.user_agent r) in
  let o := HTTPServer.wsConnect m h r cta s in
  Hub.Admit ceiling h client = verdict ->
  (exists tr,
      o.1 = HTTPServer.SendRegister client :: HTTPServer.GoWriter client
            :: HTTPServer.SetReadLimit httpconn HTTPServer.maxMessageSize :: tr)
  /\ HTTPServer.registered o.1 = [client]
  /\ HTTPServer.writers_started o.1 = [client]
  /\ HTTPServer.readers_entered o.1 = [httpconn]
  /\ (o.2 = HTTPServer.Returned ->
      exists pre,
        o.1 = pre ++ [HTTPServer.Close httpconn; HTTPServer.SendUnregister client]).
Proof.
  intros Hu Hk He client o _. subst o.
  rewrite (wsConnect_registers_trace _ _ _ _ _ _ _ _ Hu Hk He). fold client.
  cbn [fst snd].
  destruct (Reader_loop_hub_silent client httpconn HTTPServer.maxMessageSize
              (HTTPServer.inbound s)) as (Hr & _ & Hw).
  pose proof (Reader_loop_no_entry client httpconn HTTPServer.maxMessageSize
                (HTTPServer.inbound s)) as Hre.
  split_and!.
  - eexists. reflexivity.
  - rewrite (registered_app [_; _; _; _; _]), registered_app, Hr.
    by destruct (existsb _ _).
  - rewrite (writers_started_app [_; _; _; _; _]), writers_started_app, Hw.
    by destruct (existsb _ _).
  - unfold HTTPServer.readers_entered in *.
    rewrite (omap_app _ [_; _; _; _; _]), omap_app, Hre.
    by destruct (existsb _ _).
  - destruct (existsb _ _); [|done]. intros _.
    eexists. rewrite app_assoc. reflexivity.
Qed.

Lemma wsConnect_starts_pumps_after_submission_witness :
  HTTPServer.writers_started
    (HTTPServer.wsConnect Run.manager Run.hub_empty Run.request_peer1
       Run.handler Run.session2).1 = [Run.client2].
Proof.
  destruct (wsConnect_starts_pumps_after_submission
              Run.no_room Hub.RejectedCapacity
              Run.manager Run.hub_empty Run.request_peer1 Run.handler
              Run.session2 Run.conn2 "peer1" [])
    as (_ & _ & H & _).
  - reflexivity.
  - vm_compute. reflexivity.
  - vm_compute. reflexivity.
  - vm_compute. reflexivity.
  - exact H.
Defined.

(** C3.  For every record [wsConnect] sent on [Register]: when the inbound
    pump exits, whatever made the read fail, the record is sent on
    [Unregister], exactly once, as the last thing [wsConnect] does, after the
    pump closed the transport handle.  (While the pump has not exited,
    nothing is sent on [Unregister].) *)
Theorem wsConnect_unregisters_exactly_once
    (m : HTTPServer.Manager) (h : Hub.State) (r : HTTPServer.Request)
    (cta : Hub.CallToActionFunc) (s : HTTPServer.Session) (client : Hub.Client) :
  client ∈ HTTPServer.registered (HTTPServer.wsConnect m h r cta s).1 ->
  let o := HTTPServer.wsConnect m h r cta s in
  let pump := HTTPServer.Reader client (HTTPServer.reader_start s) (HTTPServer.inbound s) in
  HTTPServer.registered o.1 = [client]
  /\ (pump.2 = HTTPServer.Returned <->
      existsb (HTTPServer.read_fails HTTPServer.maxMessageSize) (HTTPServer.inbound s) = true)
  /\ (pump.2 = HTTPServer.Returned ->
      o.2 = HTTPServer.Returned
      /\ HTTPServer.unregistered o.1 = [client]
      /\ exists pre conn,
           Hub.Conn client = Hub.WebSocket conn
           /\ o.1 = pre ++ [HTTPServer.Close conn; HTTPServer.SendUnregister client])
  /\ (pump.2 <> HTTPServer.Returned ->
      o.2 = HTTPServer.Blocked /\ HTTPServer.unregistered o.1 = []).
Proof.
  intros (httpconn & name & rest & Hu & Hk & He & ->)%wsConnect_registered_inv.
  set (client := HTTPServer.new_client m httpconn cta name (HTTPServer.user_agent r)).
  intros o pump. subst o pump.
  rewrite (wsConnect_registers_trace _ _ _ _ _ _ _ _ Hu Hk He).
  rewrite (Reader_unfold client httpconn eq_refl). fold client. cbn [fst snd].
  destruct (Reader_loop_hub_silent client httpconn HTTPServer.maxMessageSize
              (HTTPServer.inbound s)) as (Hr & Hun & _).
  rewrite (registered_app [_; _; _; _; _]), registered_app, Hr.
  rewrite (unregistered_app [_; _; _; _; _]), unregistered_app, Hun.
  destruct (existsb _ _); split_and!; try done.
  intros _. split_and!; [done..|].
  eexists _, httpconn. split; [done|]. rewrite app_assoc. reflexivity.
Qed.

Lemma wsConnect_unregisters_exactly_once_witness :
  HTTPServer.unregistered
    (HTTPServer.wsConnect Run.manager Run.hub_empty Run.request_peer1
       Run.handler Run.session2).1 = [Run.client2]
  /\ HTTPServer.unregistered
       (HTTPServer.wsConnect Run.manager Run.hub_empty Run.request_peer1
          Run.handler Run.session2_open).1 = [].
Proof.
  split.
  - destruct (wsConnect_unregisters_exactly_once
                Run.manager Run.hub_empty Run.request_peer1 Run.handler
                Run.session2 Run.client2) as (_ & _ & H & _).
    + vm_compute. apply list_elem_of_here.
    + destruct H as (_ & H & _); [reflexivity | exact H].
  - destruct (wsConnect_unregisters_exactly_once
                Run.manager Run.hub_empty Run.request_peer1 Run.handler
                Run.session2_open Run.client2) as (_ & _ & _ & H).
    + vm_compute. apply list_elem_of_here.
    + destruct H as [_ H]; [discriminate | exact H].
Defined.

(** C10.  Every record [wsConnect] sends on [Register] has an outbound queue
    of capacity 256 (open and empty), role Undefined, the identified flag
    false and access mode ReadWrite; its user agent is the first
    ["User-Agent"] value of the handshake, and ["n/a"] when the header is
    absent or has no value. *)
Theorem wsConnect_new_record_fields
    (m : HTTPServer.Manager) (h : Hub.State) (r : HTTPServer.Request)
    (cta : Hub.CallToActionFunc) (s : HTTPServer.Session) (client : Hub.Client) :
  client ∈ HTTPServer.registered (HTTPServer.wsConnect m h r cta s).1 ->
  Hub.Send client = mkChan 256 [] false
  /\ chan_cap (Hub.Send client) = 256%nat
  /\ Hub.CType client = Hub.ClientUndefined
  /\ Hub.Identified client = false
  /\ Hub.Mode client = Hub.ReadWrite
  /\ (HTTPServer.Header r !! "User-Agent" = None -> Hub.User_agent client = "n/a")
  /\ (HTTPServer.Header r !! "User-Agent" = Some [] -> Hub.User_agent client = "n/a")
  /\ (forall ua more,
        HTTPServer.Header r !! "User-Agent" = Some (ua :: more) ->
        Hub.User_agent client = ua).
Proof.
  intros (httpconn & name & rest & Hu & Hk & He & ->)%wsConnect_registered_inv.
  cbn [HTTPServer.new_client Hub.Send Hub.CType Hub.Identified Hub.Mode
       Hub.User_agent chan_cap].
  unfold HTTPServer.user_agent.
  split_and!; try done.
  - by intros ->.
  - by intros ->.
  - by intros ua more ->.
Qed.

Lemma wsConnect_new_record_fields_witness :
  chan_cap (Hub.Send Run.client2) = 256%nat
  /\ Hub.User_agent Run.client2 = "n/a".
Proof.
  destruct (wsConnect_new_record_fields
              Run.manager Run.hub_empty Run.request_peer1 Run.handler
              Run.session2 Run.client2) as (_ & Hcap & _ & _ & _ & Hua & _).
  - vm_compute. apply list_elem_of_here.
  - split; [exact Hcap|]. apply Hua. vm_compute. reflexivity.
Defined.

(** ** The outbound pump *)

Section WriterFacts.

Import HTTPServer.

Variables (c : Hub.Client) (conn : websocket.Conn).

(** A receive reports a closed queue only when nothing is left in it. *)
Lemma chan_recv_closed {A : Type} (ch : Chan A) ch' :
  chan_recv ch = Some (None, ch') <->
  chan_closed ch = true /\ chan_buf ch = [] /\ ch' = ch.
Proof.
  unfold chan_recv. destruct (chan_buf ch) as [|v q].
  - destruct (chan_closed ch); split.
    + by intros [= <-].
    + by intros (_ & _ & ->).
    + done.
    + by intros [[=] _].
  - split; [done|]. by intros (_ & [=] & _).
Qed.

(** While the loop waits in [select], more input continues it from the
    queue as it then is. *)
Lemma Writer_loop_app send pre more tr :
  Writer_loop c conn send pre = (tr, Blocked) ->
  Writer_loop c conn send (pre ++ more)
  = (tr ++ (Writer_loop c conn (send_after send pre) more).1,
     (Writer_loop c conn (send_after send pre) more).2).
Proof.
  revert send tr.
  induction pre as [|[message| |now werr|now werr|] pre IH]; intros send tr;
    cbn [app Writer_loop send_after].
  - intros [= <-]. by destruct (Writer_loop c conn send more).
  - apply IH.
  - apply IH.
  - destruct (chan_recv send) as [[[message|] send']|]; [| |apply IH].
    + unfold _write. destruct werr as [e|]; [done|].
      rewrite !emit_andThen.
      destruct (Writer_loop c conn send' pre) as [tr' st] eqn:E.
      cbn [fst snd]. intros [= <- ->].
      rewrite (IH _ _ E). cbn [fst snd]. by rewrite app_assoc.
    + unfold _write. done.
  - unfold _write. destruct werr as [e|]; [done|].
    rewrite !emit_andThen.
    destruct (Writer_loop c conn send pre) as [tr' st] eqn:E.
    cbn [fst snd]. intros [= <- ->].
    rewrite (IH _ _ E). cbn [fst snd]. by rewrite app_assoc.
  - done.
Qed.

(** On a closed, drained queue the [Send] case writes the close frame and
    leaves the loop. *)
Lemma Writer_loop_closed send now werr rest :
  chan_closed send = true -> chan_buf send = [] ->
  Writer_loop c conn send (TakeSend now werr :: rest)
  = emit (logf clog.Warn "Writer" "Error: %s" [clog.ABool false]
          :: SetWriteDeadline conn (now + writeWait)
          :: WriteMessage conn websocket.CloseMessage
               (websocket.FormatCloseMessage websocket.CloseNormalClosure
                  "Disconnected")
          :: match werr with
             | Some _ => [logf clog.Error "_close"
                            "Cannot write CloseMessage to %s"
                            [clog.AString (Hub.Name c)]]
             | None => []
             end).
Proof.
  intros Hc Hb. cbn [Writer_loop].
  assert (chan_recv send = Some (None, send)) as ->
    by by apply chan_recv_closed.
  done.
Qed.

Lemma Writer_loop_quit send rest :
  Writer_loop c conn send (TakeQuit :: rest) = emit [].
Proof. done. Qed.

End WriterFacts.

(** C6.  Let the outbound pump wait in its [select] after some history [pre].
    If the [Send] case is then taken on a queue that is closed with nothing
    left in it, the pump sets the write deadline ([writeWait] from now),
    writes one close frame with code 1000 (normal closure) and reason
    ["Disconnected"], and terminates, stopping the ticker and closing the
    connection, whatever the write returned.  If instead the [Quit] case is
    taken, the pump terminates at once: it writes no frame after those of
    [pre]. *)
Theorem Writer_close_frame_and_quit
    (c : Hub.Client) (conn : websocket.Conn)
    (pre rest : list HTTPServer.Wake) (tr : list HTTPServer.Event)
    (now : Time) (werr : option error) :
  Hub.Conn c = Hub.WebSocket conn ->
  HTTPServer.Writer_loop c conn (Hub.Send c) pre = (tr, HTTPServer.Blocked) ->
  let queue := HTTPServer.send_after (Hub.Send c) pre in
  (chan_closed queue = true -> chan_buf queue = [] ->
   HTTPServer.Writer c (pre ++ HTTPServer.TakeSend now werr :: rest)
   = (HTTPServer.NewTicker HTTPServer.pingPeriod :: tr
      ++ [HTTPServer.logf clog.Warn "Writer" "Error: %s" [clog.ABool false];
          HTTPServer.SetWriteDeadline conn (now + HTTPServer.writeWait);
          HTTPServer.WriteMessage conn websocket.CloseMessage
            (x03 :: xe8 :: bytes_of_string "Disconnected")]
      ++ match werr with
         | Some _ => [HTTPServer.logf clog.Error "_close"
                        "Cannot write CloseMessage to %s"
                        [clog.AString (Hub.Name c)]]
         | None => []
         end
      ++ [HTTPServer.TickerStop; HTTPServer.Close conn],
      HTTPServer.Returned))
  /\ HTTPServer.Writer c (pre ++ HTTPServer.TakeQuit :: rest)
     = (HTTPServer.NewTicker HTTPServer.pingPeriod :: tr
        ++ [HTTPServer.TickerStop; HTTPServer.Close conn],
        HTTPServer.Returned)
  /\ HTTPServer.frames_written
       (HTTPServer.Writer c (pre ++ HTTPServer.TakeQuit :: rest)).1
     = HTTPServer.frames_written tr.
Proof.
  intros Hconn Hpre queue.
  assert (HTTPServer.Writer c (pre ++ HTTPServer.TakeQuit :: rest)
          = (HTTPServer.NewTicker HTTPServer.pingPeriod :: tr
             ++ [HTTPServer.TickerStop; HTTPServer.Close conn],
             HTTPServer.Returned)) as Hquit.
  { unfold HTTPServer.Writer. rewrite Hconn, emit_andThen.
    rewrite (Writer_loop_app _ _ _ _ _ _ Hpre), Writer_loop_quit.
    cbn. by rewrite app_nil_r. }
  split_and!; [|done|].
  - intros Hclosed Hbuf.
    unfold HTTPServer.Writer. rewrite Hconn, emit_andThen.
    rewrite (Writer_loop_app _ _ _ _ _ _ Hpre).
    rewrite (Writer_loop_closed _ _ _ _ _ _ Hclosed Hbuf).
    cbn [fst snd HTTPServer.emit HTTPServer.andThen app].
    f_equal. f_equal. rewrite <- !app_assoc. reflexivity.
  - rewrite Hquit. cbn [fst].
    unfold HTTPServer.frames_written.
    change (HTTPServer.NewTicker HTTPServer.pingPeriod :: tr ++ ?l)
      with ([HTTPServer.NewTicker HTTPServer.pingPeriod] ++ tr ++ l).
    rewrite !omap_app. cbn. by rewrite app_nil_r.
Qed.

Lemma Writer_close_frame_and_quit_witness :
  let pre := [HTTPServer.Produce (bytes_of_string "hi");
              HTTPServer.TakeSend 10 None; HTTPServer.CloseSend] in
  HTTPServer.frames_written
    (HTTPServer.Writer Run.client2 (pre ++ [HTTPServer.TakeSend 20 None])).1
  = [(websocket.TextMessage, bytes_of_string "hi");
     (websocket.CloseMessage, x03 :: xe8 :: bytes_of_string "Disconnected")]
  /\ HTTPServer.frames_written
       (HTTPServer.Writer Run.client2 (pre ++ [HTTPServer.TakeQuit])).1
     = [(websocket.TextMessage, bytes_of_string "hi")].
Proof.
  intros pre.
  destruct (Writer_close_frame_and_quit
              Run.client2 Run.conn2 pre []
              (HTTPServer.Writer_loop Run.client2 Run.conn2
                 (Hub.Send Run.client2) pre).1
              20 None eq_refl)
    as (Hclose & Hquit & _).
  - vm_compute. reflexivity.
  - split.
    + rewrite Hclose by reflexivity. vm_compute. reflexivity.
    + rewrite Hquit. vm_compute. reflexivity.
Defined.

(** ** Configuration *)

(** C5.  The write deadline is 5 seconds, the liveness timeout 60 seconds,
    the probe period 9/10 of the liveness timeout, which is 54 seconds, and
    the largest inbound frame 512 bytes. *)
Theorem timing_and_size_constants :
  HTTPServer.writeWait = 5 * time.Second
  /\ HTTPServer.pongWait = 60 * time.Second
  /\ HTTPServer.pingPeriod = 54 * time.Second
  /\ 10 * HTTPServer.pingPeriod = 9 * HTTPServer.pongWait
  /\ HTTPServer.maxMessageSize = 512
  /\ time.Second = 1000000000.
Proof. vm_compute. done. Qed.

Section LoadFacts.

Import Config.

(** Parsing no arguments changes nothing and does not fail. *)
Lemma Parse_nil fs : flag.Parse fs [] = Some fs.
Proof. done. Qed.

(** The two flag assignments give the flag defaults, whatever the flag
    set holds, unless [flag.String] panics on a flag defined before. *)
Lemma Load_flags_defaults fs conf :
  Load_flags fs conf = None
  \/ Load_flags fs conf
     = Some (set_TCPaddr "localhost:8081" (set_HTTPaddr "localhost:8080" conf),
             <["tcpaddr" := "localhost:8081"]>
               (<["httpaddr" := "localhost:8080"]> fs)).
Proof.
  unfold Load_flags, flag.String.
  destruct (fs !! "httpaddr"); [by left|].
  rewrite lookup_insert_ne by done.
  destruct (fs !! "tcpaddr"); [by left|]. right.
  unfold flag.deref. by rewrite !lookup_insert_eq.
Qed.

Lemma Load_flags_fresh fs conf :
  fs !! "httpaddr" = None -> fs !! "tcpaddr" = None ->
  Load_flags fs conf
  = Some (set_TCPaddr "localhost:8081" (set_HTTPaddr "localhost:8080" conf),
          <["tcpaddr" := "localhost:8081"]>
            (<["httpaddr" := "localhost:8080"]> fs)).
Proof.
  intros H1 H2. unfold Load_flags, flag.String.
  rewrite H1, lookup_insert_ne, H2 by done.
  unfold flag.deref. by rewrite !lookup_insert_eq.
Qed.

End LoadFacts.

(** C7.  When [ini.Load] fails on the settings file (missing or unreadable),
    [Load] logs the error and returns both a non-nil configuration and that
    same error.  The configuration holds the built-in defaults: log level 4,
    logging on, capacities 100/3/5/50, buffer sizes 4096, handshake timeout 5,
    the TCP timings 2/1/10, hash size 8, and the two default addresses.  This
    is for a first call in the process (the two flags not defined yet) whose
    command line [flag.Parse] accepts. *)
Theorem Load_returns_defaults_and_error (w : Config.Process) (err : error) :
  Config.CommandLine w !! "httpaddr" = None ->
  Config.CommandLine w !! "tcpaddr" = None ->
  is_Some (flag.Parse
             (<["tcpaddr" := "localhost:8081"]>
                (<["httpaddr" := "localhost:8080"]> (Config.CommandLine w)))
             (Config.Args w)) ->
  Config.ini_Load w (Config.GOPATH w +:+ "/etc/server.ini") = inr err ->
  exists conf,
    Config.Load w
    = ([clog.mkEntry clog.Error "server" "getConf" "Invalid conf file: %s"
          [clog.AError err]],
       Config.Returns (Some conf) (Some err))
    /\ conf = Config.set_TCPaddr "localhost:8081"
                (Config.set_HTTPaddr "localhost:8080" Config.defaults)
    /\ Config.Globals_ conf = Config.mkGlobals 4 true
    /\ Config.ConnectionLimit_ conf = Config.mkConnectionLimit 100 3 5 50
    /\ Config.HTTPServerConfig_ conf = Config.mkHTTPServerConfig 4096 4096 5
    /\ Config.TCPServerConfig_ conf = Config.mkTCPServerConfig 2 1 10
    /\ Config.HASH_SIZE (Config.Encryption_ conf) = 8
    /\ Config.ServersAddresses_ conf
       = Config.mkServersAddresses "localhost:8080" "localhost:8081"
    /\ Config.Servers (Config.KnownBrothers_ conf) = ∅.
Proof.
  intros H1 H2 [fs Hparse] Hini.
  eexists. split; [|done].
  unfold Config.Load.
  rewrite (Load_flags_fresh _ _ H1 H2), Hparse, Hini. reflexivity.
Qed.

Lemma Load_returns_defaults_and_error_witness :
  exists conf err,
    (Config.Load Run.process).2 = Config.Returns (Some conf) (Some err)
    /\ Config.LogLevel (Config.Globals_ conf) = 4
    /\ Config.MaxUsersConns (Config.ConnectionLimit_ conf) = 100.
Proof.
  destruct (Load_returns_defaults_and_error Run.process
              "open /home/go/etc/server.ini: no such file or directory")
    as (conf & Hload & _ & Hg & Hl & _).
  - reflexivity.
  - reflexivity.
  - vm_compute. eexists. reflexivity.
  - reflexivity.
  - exists conf, "open /home/go/etc/server.ini: no such file or directory".
    rewrite Hload, Hg, Hl. done.
Defined.

(** C8.  Whatever the command line holds, the two assignments give
    [HTTPaddr] and [TCPaddr] the flag defaults ["localhost:8080"] and
    ["localhost:8081"], because each pointer is dereferenced before
    [flag.Parse] runs (unless [flag.String] panics on a flag defined before).
    The command line never reaches what [Load] returns: with any arguments,
    [Load] either ends the process in [flag.Parse] or does exactly what it
    does with no arguments; and when the settings file cannot be loaded, the
    configuration it returns holds the two defaults. *)
Theorem Load_addresses_ignore_command_line (w : Config.Process) :
  (forall conf,
      Config.Load_flags (Config.CommandLine w) conf = None
      \/ exists fs,
          Config.Load_flags (Config.CommandLine w) conf
          = Some (Config.set_TCPaddr "localhost:8081"
                    (Config.set_HTTPaddr "localhost:8080" conf), fs))
  /\ (forall arguments,
        Config.Load (Config.with_Args w arguments) = ([], Config.Exits 2)
        \/ Config.Load (Config.with_Args w arguments)
           = Config.Load (Config.with_Args w []))
  /\ (forall arguments e conf err,
        Config.ini_Load w (Config.GOPATH w +:+ "/etc/server.ini") = inr e ->
        (Config.Load (Config.with_Args w arguments)).2 = Config.Returns conf err ->
        exists d,
          conf = Some d
          /\ Config.HTTPaddr (Config.ServersAddresses_ d) = "localhost:8080"
          /\ Config.TCPaddr (Config.ServersAddresses_ d) = "localhost:8081").
Proof.
  split_and!.
  - intros conf. destruct (Load_flags_defaults (Config.CommandLine w) conf) as [H|H];
      [by left | right; eauto].
  - intros arguments. unfold Config.Load.
    cbn [Config.with_Args Config.CommandLine Config.Args Config.GOPATH
         Config.ini_Load].
    destruct (Config.Load_flags _ _) as [[conf fs]|]; [|by right].
    rewrite Parse_nil.
    destruct (flag.Parse fs arguments); [by right | by left].
  - intros arguments e conf err Hini. unfold Config.Load.
    cbn [Config.with_Args Config.CommandLine Config.Args Config.GOPATH
         Config.ini_Load].
    destruct (Load_flags_defaults (Config.CommandLine w) Config.defaults)
      as [-> | ->]; [done|].
    destruct (flag.Parse _ arguments); [|done].
    rewrite Hini. cbn [snd]. intros [= <- _]. eexists. split; [done|]. done.
Qed.

Lemma Load_addresses_ignore_command_line_witness :
  (exists fs,
      flag.Parse
        (<["tcpaddr" := "localhost:8081"]> (<["httpaddr" := "localhost:8080"]> ∅))
        (Config.Args Run.process) = Some fs
      /\ fs !! "httpaddr" = Some "0.0.0.0:9000")
  /\ exists d err,
       (Config.Load Run.process).2 = Config.Returns (Some d) err
       /\ Config.HTTPaddr (Config.ServersAddresses_ d) = "localhost:8080".
Proof.
  split.
  - eexists. split; vm_compute; reflexivity.
  - destruct (Load_addresses_ignore_command_line Run.process) as (_ & _ & H).
    destruct (H (Config.Args Run.process)
                "open /home/go/etc/server.ini: no such file or directory"
                (Some (Config.set_TCPaddr "localhost:8081"
                         (Config.set_HTTPaddr "localhost:8080" Config.defaults)))
                (Some "open /home/go/etc/server.ini: no such file or directory"))
      as (d & Hd & Hh & _).
    + reflexivity.
    + vm_compute. reflexivity.
    + exists d, (Some "open /home/go/etc/server.ini: no such file or directory").
      split; [|exact Hh]. injection Hd as <-. vm_compute. reflexivity.
Defined.

(** * Further properties *)

(** ** More on the frame normalisation *)

Section NormalizeMore.

Import Bytes HTTPServer.

Local Abbreviation crlf_to_space s := (Replace s Newline Space (-1)).

Lemma Replace_length s : (length (crlf_to_space s) <= length s)%nat.
Proof.
  induction s as [s IH] using length_ind.
  destruct (Replace_cases s) as [[-> E]|[(t & -> & E)|(c & t & -> & _ & E)]];
    rewrite E; [done|..].
  - cbn [length]. specialize (IH t). cbn [length] in IH. lia.
  - cbn [length]. specialize (IH t). cbn [length] in IH. lia.
Qed.

Lemma TrimSpace_length s : (length (TrimSpace s) <= length s)%nat.
Proof.
  destruct (TrimSpace_split s) as (pre & suf & _ & _ & Hs & _).
  rewrite Hs at 2. rewrite !length_app. lia.
Qed.

Lemma normalize_length message :
  (length (normalize message) <= length message)%nat.
Proof.
  unfold normalize.
  pose proof (TrimSpace_length (crlf_to_space message)).
  pose proof (Replace_length message). lia.
Qed.

Lemma HasPrefix_app s t sub :
  HasPrefix s sub = true -> HasPrefix (s ++ t) sub = true.
Proof.
  revert s. induction sub as [|p sub IH]; intros [|c s]; cbn; [done..|].
  intros [-> H]%andb_true_iff. by rewrite IH.
Qed.

Lemma Contains_app_r a b sub :
  Contains (a ++ b) sub = false -> Contains b sub = false.
Proof.
  induction a as [|c a IH]; [done|].
  cbn [app Contains]. intros [_ H]%orb_false_iff. by apply IH.
Qed.

Lemma Contains_app_l a b sub :
  Contains (a ++ b) sub = false -> Contains a sub = false.
Proof.
  induction a as [|c a IH].
  - destruct sub; [|done]. by destruct b.
  - cbn [app Contains]. intros [H1 H2]%orb_false_iff.
    rewrite (IH H2), orb_false_r.
    destruct (HasPrefix (c :: a) sub) eqn:E; [|done].
    apply (HasPrefix_app _ b) in E. cbn [app] in E. congruence.
Qed.

Lemma TrimLeftSpace_id s :
  starts_with_space s = false -> TrimLeftSpace s = s.
Proof.
  destruct s as [|b1 [|b2 [|b3 s]]]; cbn [starts_with_space TrimLeftSpace];
    [done|..].
  - by intros [-> _]%orb_false_iff.
  - by intros [-> [-> _]%orb_false_iff]%orb_false_iff.
  - by intros [-> [-> ->]%orb_false_iff]%orb_false_iff.
Qed.

Lemma trim_rev_space_id r :
  rev_starts_with_space r = false -> trim_rev_space r = r.
Proof.
  destruct r as [|b1 [|b2 [|b3 r]]]; cbn [rev_starts_with_space trim_rev_space];
    [done|..].
  - by intros [-> _]%orb_false_iff.
  - by intros [-> [-> _]%orb_false_iff]%orb_false_iff.
  - by intros [-> [-> ->]%orb_false_iff]%orb_false_iff.
Qed.

Lemma TrimSpace_id s :
  starts_with_space s = false -> ends_with_space s = false -> TrimSpace s = s.
Proof.
  intros H1 H2. unfold TrimSpace, TrimRightSpace.
  rewrite (TrimLeftSpace_id _ H1), (trim_rev_space_id _ H2).
  apply rev_involutive.
Qed.

End NormalizeMore.

(** A message that was read is within the read limit. *)
Lemma received_bounded limit input (message : bytes) :
  message ∈ HTTPServer.received limit input ->
  Z.of_nat (length message) <= limit.
Proof.
  induction input as [|i rest IH]; cbn [HTTPServer.received].
  - by intros ?%elem_of_nil.
  - destruct (HTTPServer.read_fails limit i) eqn:E; [by intros ?%elem_of_nil|].
    destruct i as [p|t a|e]; [|done..].
    intros [->|H]%elem_of_cons; [|by apply IH].
    cbn [HTTPServer.read_fails] in E. lia.
Qed.

(** X1.  Normalising never lengthens a frame, so every payload the inbound
    pump hands to the handler is at most [maxMessageSize] (512) bytes long,
    and it is handed over with the pump's own peer record. *)
Theorem Reader_dispatch_bounded
    (c : Hub.Client) (conn : websocket.Conn) (now : Time)
    (input : list HTTPServer.Inbound) (c' : Hub.Client) (payload : bytes) :
  Hub.Conn c = Hub.WebSocket conn ->
  (c', payload) ∈ HTTPServer.dispatched (HTTPServer.Reader c now input).1 ->
  c' = c
  /\ Z.of_nat (length payload) <= HTTPServer.maxMessageSize
  /\ exists message,
       payload = HTTPServer.normalize message
       /\ (length payload <= length message)%nat.
Proof.
  intros Hconn. rewrite (Reader_dispatched _ _ Hconn).
  intros (message & [= -> ->] & Hin)%list_elem_of_fmap.
  pose proof (received_bounded _ _ _ Hin) as Hm.
  pose proof (normalize_length message).
  split_and!; [done|lia|]. by exists message.
Qed.

Lemma Reader_dispatch_bounded_witness :
  Z.of_nat (length (bytes_of_string "hello world")) <= 512.
Proof.
  destruct (Reader_dispatch_bounded Run.client2 Run.conn2 1000
              (HTTPServer.inbound Run.session2) Run.client2
              (bytes_of_string "hello world") eq_refl)
    as (_ & H & _).
  - vm_compute. apply list_elem_of_here.
  - exact H.
Defined.

(** X2.  Normalising is idempotent: a payload that went through the
    normalisation of [Reader] is left as it is by a second pass; it holds no
    line break and has white space at neither end. *)
Theorem normalize_idempotent (message : bytes) :
  HTTPServer.normalize (HTTPServer.normalize message) = HTTPServer.normalize message
  /\ Bytes.Contains (HTTPServer.normalize message) HTTPServer.Newline = false
  /\ Bytes.starts_with_space (HTTPServer.normalize message) = false
  /\ Bytes.ends_with_space (HTTPServer.normalize message) = false.
Proof.
  unfold HTTPServer.normalize.
  set (r := Bytes.Replace message HTTPServer.Newline HTTPServer.Space (-1)).
  destruct (TrimSpace_split r) as (pre & suf & _ & _ & Hr & Hst & Hen).
  assert (Bytes.Contains (Bytes.TrimSpace r) HTTPServer.Newline = false) as Hc.
  { pose proof (Replace_no_Newline message) as H. fold r in H.
    rewrite Hr in H. apply Contains_app_r in H. by apply Contains_app_l in H. }
  split_and!; [|done..].
  rewrite (Replace_id _ Hc). by apply TrimSpace_id.
Qed.

Section TrailingBlank.

Import Bytes HTTPServer.

Local Abbreviation crlf_to_space s := (Replace s Newline Space (-1)).

Import Observe.

Lemma Blank_head b ws : Blank (b :: ws) -> rune_start b.
Proof.
  unfold rune_start. inversion 1 as [|? ? Hb|? ? ? Hb|? ? ? ? Hb]; subst.
  - by left.
  - apply space2_inv in Hb as [-> _]. eauto.
  - apply space3_inv in Hb as [[-> | [-> | ->]] _]; eauto 6.
Qed.

Lemma space3_inv_tail b1 b2 b3 :
  space3 b1 b2 b3 = true ->
  (b2 = x9a \/ b2 = x80 \/ b2 = x81) /\ (128 <= Byte.to_N b3 <= 175)%N.
Proof.
  unfold space3.
  rewrite !orb_true_iff, !andb_true_iff, !orb_true_iff, !andb_true_iff,
    !bool_decide_eq_true, !N.leb_le.
  intros H.
  repeat match goal with
         | H : _ \/ _ |- _ => destruct H
         | H : _ /\ _ |- _ => destruct H
         end; subst; split; eauto; try done; try lia.
Qed.

Lemma rune_start_not_second b a : rune_start a -> space2 b a = false.
Proof.
  intros Ha. destruct (space2 b a) eqn:E; [|done].
  apply space2_inv in E as [_ E].
  destruct Ha as [Ha | Ha].
  - apply asciiSpace_low in Ha. destruct E as [-> | ->]; vm_compute in Ha; done.
  - destruct E as [-> | ->]; destruct Ha as [? | [? | [? | ?]]]; done.
Qed.

Lemma rune_start_not_middle b a x : rune_start a -> space3 b a x = false.
Proof.
  intros Ha. destruct (space3 b a x) eqn:E; [|done].
  apply space3_inv_tail in E as [E _].
  destruct Ha as [Ha | Ha].
  - apply asciiSpace_low in Ha.
    destruct E as [-> | [-> | ->]]; vm_compute in Ha; done.
  - destruct E as [-> | [-> | ->]]; destruct Ha as [? | [? | [? | ?]]]; done.
Qed.

Lemma rune_start_not_last b1 b2 a : rune_start a -> space3 b1 b2 a = false.
Proof.
  intros Ha. destruct (space3 b1 b2 a) eqn:E; [|done].
  apply space3_inv_tail in E as [_ E].
  destruct Ha as [Ha | [-> | [-> | [-> | ->]]]].
  - apply asciiSpace_low in Ha. lia.
  - destruct E as [_ E]. exfalso. apply E. reflexivity.
  - destruct E as [_ E]. exfalso. apply E. reflexivity.
  - destruct E as [_ E]. exfalso. apply E. reflexivity.
  - destruct E as [_ E]. exfalso. apply E. reflexivity.
Qed.

(** Appending white space to a slice that has a first non-space rune leaves
    that rune the first. *)
Lemma starts_with_space_app_Blank s ws :
  s <> [] -> starts_with_space s = false -> Blank ws ->
  starts_with_space (s ++ ws) = false.
Proof.
  intros Hne Hs Hws.
  destruct ws as [|a ws]; [by rewrite app_nil_r|].
  pose proof (Blank_head _ _ Hws) as Ha.
  destruct s as [|b1 [|b2 [|b3 s]]]; [done|..]; cbn [app starts_with_space] in *.
  - apply orb_false_iff in Hs as [-> _]. cbn [orb].
    rewrite (rune_start_not_second _ _ Ha). cbn [orb].
    destruct ws; [done|]. by apply rune_start_not_middle.
  - apply orb_false_iff in Hs as [-> [-> _]%orb_false_iff]. cbn [orb].
    by apply rune_start_not_last.
  - done.
Qed.

Lemma trim_rev_space_Blank ws r :
  Blank ws -> trim_rev_space (rev ws ++ r) = trim_rev_space r.
Proof.
  intros H. revert r.
  induction H as [|b ws Hb _ IH|b1 b2 ws Hb _ IH|b1 b2 b3 ws Hb _ IH]; intros r;
    [done|..]; cbn [rev]; rewrite <- ?app_assoc; rewrite IH; cbn [app trim_rev_space].
  - by rewrite Hb.
  - destruct (space2_high _ _ Hb) as [_ H2].
    by rewrite (high_not_ascii _ H2), Hb.
  - destruct (space3_high _ _ _ Hb) as (_ & _ & H3).
    assert (space2 b2 b3 = false) as H23.
    { destruct (space2 b2 b3) eqn:E; [|done].
      apply space2_inv in E as [-> _].
      apply space3_inv_tail in Hb as [[? | [? | ?]] _]; done. }
    by rewrite (high_not_ascii _ H3), H23, Hb.
Qed.

Lemma TrimRightSpace_Blank s ws :
  Blank ws -> TrimRightSpace (s ++ ws) = TrimRightSpace s.
Proof.
  intros H. unfold TrimRightSpace.
  by rewrite rev_app_distr, trim_rev_space_Blank.
Qed.

Lemma TrimLeftSpace_all_Blank ws : Blank ws -> TrimLeftSpace ws = [].
Proof.
  intros H. rewrite <- (app_nil_r ws). by rewrite TrimLeftSpace_Blank.
Qed.

(** White space appended to a slice is trimmed away. *)
Lemma TrimSpace_app_Blank s ws :
  Blank ws -> TrimSpace (s ++ ws) = TrimSpace s.
Proof.
  intros Hws. unfold TrimSpace.
  destruct (TrimLeftSpace_split s) as (pre & Hpre & Hs & Hst).
  rewrite Hs at 1. rewrite <- app_assoc, TrimLeftSpace_Blank by done.
  destruct (TrimLeftSpace s) as [|b t] eqn:E.
  - cbn [app]. by rewrite TrimLeftSpace_all_Blank.
  - rewrite TrimLeftSpace_id
      by (apply starts_with_space_app_Blank; done).
    by apply TrimRightSpace_Blank.
Qed.

Lemma Blank_tail_ascii b ws : asciiSpace b = true -> Blank (b :: ws) -> Blank ws.
Proof.
  intros Hb. inversion 1 as [|? ? _ Hws|? ? ? H2|? ? ? ? H3]; subst; [done|..].
  - destruct (space2_high _ _ H2) as [H1 _].
    rewrite (high_not_ascii _ H1) in Hb. done.
  - destruct (space3_high _ _ _ H3) as [H1 _].
    rewrite (high_not_ascii _ H1) in Hb. done.
Qed.

(** Replacing line breaks in white space gives white space. *)
Lemma Blank_Replace ws : Blank ws -> Blank (crlf_to_space ws).
Proof.
  induction 1 as [|b ws Hb Hws IH|b1 b2 ws Hb _ IH|b1 b2 b3 ws Hb _ IH];
    [constructor|..].
  - destruct (HasPrefix (b :: ws) Newline) eqn:P.
    + apply HasPrefix_Newline in P as [-> [t ->]].
      rewrite Replace_crlf.
      rewrite (Replace_copy_ne x0a) in IH by done.
      apply Blank_ascii; [done|]. by apply (Blank_tail_ascii x0a).
    + rewrite Replace_copy by done. by apply Blank_ascii.
  - destruct (space2_high _ _ Hb) as [H1 H2].
    rewrite !Replace_copy_ne by by apply high_not_cr.
    by apply Blank_two.
  - destruct (space3_high _ _ _ Hb) as (H1 & H2 & H3).
    rewrite !Replace_copy_ne by by apply high_not_cr.
    by apply Blank_three.
Qed.

(** Replacing line breaks in a frame followed by white space and in the
    frame alone gives the same bytes up to trailing white space. *)
Lemma Replace_app_Blank s ws :
  Blank ws ->
  exists z a b,
    Blank a /\ Blank b
    /\ crlf_to_space (s ++ ws) = z ++ a /\ crlf_to_space s = z ++ b.
Proof.
  intros Hws. induction s as [s IH] using length_ind.
  destruct (Replace_cases s) as [[-> E]|[(t & -> & E)|(c & t & -> & Hc & E)]].
  - exists [], (crlf_to_space ws), []. split_and!; [|constructor|done..].
    by apply Blank_Replace.
  - destruct (IH t) as (z & a & b & Ha & Hb & E1 & E2); [cbn; lia|].
    exists (x20 :: z), a, b. cbn [app]. rewrite !Replace_crlf, E1, E2. done.
  - destruct (HasPrefix ((c :: t) ++ ws) Newline) eqn:P.
    + cbn [app] in P. apply HasPrefix_Newline in P as [-> [u Hu]].
      destruct t as [|d t].
      * cbn [app] in Hu. subst ws.
        exists [], (x20 :: crlf_to_space u), [x0d].
        cbn [app]. rewrite Replace_crlf, Replace_copy_last.
        split_and!; [| |done..].
        -- apply Blank_ascii; [done|]. apply Blank_Replace.
           by apply (Blank_tail_ascii x0a).
        -- by repeat constructor.
      * cbn [app] in Hu. injection Hu as -> _.
        exfalso.
        assert (HasPrefix (x0d :: x0a :: t) Newline = true)
          by (apply HasPrefix_Newline; eauto).
        congruence.
    + destruct (IH t) as (z & a & b & Ha & Hb & E1 & E2); [cbn; lia|].
      exists (c :: z), a, b. cbn [app] in *.
      rewrite (Replace_copy _ _ P), (Replace_copy _ _ Hc), E1, E2. done.
Qed.

Lemma normalize_app_Blank message ws :
  Blank ws -> normalize (message ++ ws) = normalize message.
Proof.
  intros Hws. unfold normalize.
  destruct (Replace_app_Blank message ws Hws) as (z & a & b & Ha & Hb & -> & ->).
  by rewrite !TrimSpace_app_Blank.
Qed.

End TrailingBlank.

(** X3.  White space around a frame never reaches the handler: two frames
    that differ only by runs of white space at the head and at the end are
    dispatched with the same payload, and a frame of white space only is
    dispatched with the empty payload. *)
Theorem Reader_ignores_surrounding_blanks
    (c : Hub.Client) (conn : websocket.Conn) (now : Time)
    (lead trail message : bytes) (input : list HTTPServer.Inbound) :
  Hub.Conn c = Hub.WebSocket conn ->
  Bytes.Blank lead -> Bytes.Blank trail ->
  Z.of_nat (length (lead ++ message ++ trail)) <= HTTPServer.maxMessageSize ->
  HTTPServer.dispatched
    (HTTPServer.Reader c now (HTTPServer.Frame (lead ++ message ++ trail) :: input)).1
  = HTTPServer.dispatched
      (HTTPServer.Reader c now (HTTPServer.Frame message :: input)).1
  /\ HTTPServer.normalize (lead ++ message ++ trail) = HTTPServer.normalize message
  /\ HTTPServer.normalize (lead ++ trail) = [].
Proof.
  intros Hconn Hl Ht Hlen.
  assert (HTTPServer.normalize (lead ++ message ++ trail)
          = HTTPServer.normalize message) as Hn
    by by rewrite normalize_Blank, normalize_app_Blank.
  split_and!; [|done|].
  - rewrite !(Reader_dispatched _ _ Hconn).
    cbn [HTTPServer.received HTTPServer.read_fails].
    assert ((Z.of_nat (length (lead ++ message ++ trail))
             >? HTTPServer.maxMessageSize) = false) as -> by lia.
    rewrite !length_app in Hlen.
    assert ((Z.of_nat (length message) >? HTTPServer.maxMessageSize) = false)
      as -> by lia.
    cbn [map]. by rewrite Hn.
  - rewrite normalize_Blank by done.
    rewrite <- (app_nil_l trail). by rewrite normalize_app_Blank.
Qed.

Lemma Reader_ignores_surrounding_blanks_witness :
  HTTPServer.normalize
    ([x20; x0d; x0a] ++ bytes_of_string "a b" ++ [x0d; x0a; xc2; xa0])
  = HTTPServer.normalize (bytes_of_string "a b").
Proof.
  destruct (Reader_ignores_surrounding_blanks
              Run.client2 Run.conn2 1000 [x20; x0d; x0a]
              [x0d; x0a; xc2; xa0] (bytes_of_string "a b") [] eq_refl)
    as (_ & H & _).
  - repeat (apply Bytes.Blank_ascii; [reflexivity|]). apply Bytes.Blank_nil.
  - do 2 (apply Bytes.Blank_ascii; [reflexivity|]).
    apply Bytes.Blank_two; [reflexivity|]. apply Bytes.Blank_nil.
  - vm_compute. discriminate.
  - exact H.
Defined.

(** ** More on the inbound pump *)

Section ReaderMore.

Import HTTPServer.

Variables (c : Hub.Client) (conn : websocket.Conn).

(** The loop closes nothing and writes nothing. *)
Lemma Reader_loop_quiet limit input :
  closed (Reader_loop c conn limit input).1 = []
  /\ frames_written (Reader_loop c conn limit input).1 = [].
Proof.
  unfold closed, frames_written.
  induction input as [|[payload|now app|err] rest [IH1 IH2]]; cbn [Reader_loop].
  - done.
  - destruct (_ >? _); [done|]. rewrite emit_andThen. cbn [fst].
    by rewrite !omap_app, IH1, IH2.
  - rewrite emit_andThen. cbn [fst]. by rewrite !omap_app, IH1, IH2.
  - done.
Qed.

(** The loop pushes the read deadline once for each pong it sees. *)
Lemma Reader_loop_deadlines limit input :
  Observe.read_deadlines (Reader_loop c conn limit input).1
  = map (fun t => t + pongWait) (Observe.pongs limit input).
Proof.
  unfold Observe.read_deadlines.
  induction input as [|[payload|now app|err] rest IH];
    cbn [Reader_loop Observe.pongs read_fails].
  - done.
  - destruct (_ >? _); [done|]. rewrite emit_andThen. cbn [fst].
    by rewrite omap_app, IH.
  - rewrite emit_andThen. cbn [fst]. rewrite omap_app, IH. done.
  - done.
Qed.

End ReaderMore.

(** X4.  The inbound pump, on a websocket peer, never panics; it closes the
    connection exactly once, as its last action, when it exits, and not
    before; it writes no frame, sends nothing to the hub and starts no
    outbound pump. *)
Theorem Reader_closes_once_at_exit
    (c : Hub.Client) (conn : websocket.Conn) (now : Time)
    (input : list HTTPServer.Inbound) :
  Hub.Conn c = Hub.WebSocket conn ->
  let o := HTTPServer.Reader c now input in
  o.2 <> HTTPServer.Panicked
  /\ HTTPServer.closed o.1
     = (if decide (o.2 = HTTPServer.Returned) then [conn] else [])
  /\ (o.2 = HTTPServer.Returned -> exists pre, o.1 = pre ++ [HTTPServer.Close conn])
  /\ HTTPServer.frames_written o.1 = []
  /\ HTTPServer.registered o.1 = []
  /\ HTTPServer.unregistered o.1 = []
  /\ HTTPServer.writers_started o.1 = [].
Proof.
  intros Hconn o. subst o. rewrite (Reader_unfold _ _ Hconn). cbn [fst snd].
  destruct (Reader_loop_quiet c conn HTTPServer.maxMessageSize input) as [Hc Hf].
  destruct (Reader_loop_hub_silent c conn HTTPServer.maxMessageSize input)
    as (Hr & Hu & Hw).
  unfold HTTPServer.closed, HTTPServer.frames_written, HTTPServer.registered,
    HTTPServer.unregistered, HTTPServer.writers_started in *.
  rewrite !(omap_app _ [_; _; _]), !omap_app, Hc, Hf, Hr, Hu, Hw.
  destruct (existsb _ _); split_and!; try done.
  intros _. eexists. rewrite app_assoc. reflexivity.
Qed.

Lemma Reader_closes_once_at_exit_witness :
  HTTPServer.closed
    (HTTPServer.Reader Run.client2 1000 (HTTPServer.inbound Run.session2)).1
  = [Run.conn2].
Proof.
  destruct (Reader_closes_once_at_exit Run.client2 Run.conn2 1000
              (HTTPServer.inbound Run.session2) eq_refl) as (_ & H & _).
  rewrite H. reflexivity.
Defined.

(** X5.  The read deadline is set on entry and pushed by each pong that
    arrives before the first failing read, each time to [pongWait] (60 s)
    after that moment, and by nothing else: a data frame does not extend
    it. *)
Theorem Reader_read_deadlines
    (c : Hub.Client) (conn : websocket.Conn) (now : Time)
    (input : list HTTPServer.Inbound) :
  Hub.Conn c = Hub.WebSocket conn ->
  Observe.read_deadlines (HTTPServer.Reader c now input).1
  = map (fun t => t + HTTPServer.pongWait)
        (now :: Observe.pongs HTTPServer.maxMessageSize input)
  /\ (forall payload rest,
        input = HTTPServer.Frame payload :: rest ->
        Observe.read_deadlines (HTTPServer.Reader c now input).1
        = Observe.read_deadlines
            (HTTPServer.Reader c now
               (if HTTPServer.read_fails HTTPServer.maxMessageSize
                     (HTTPServer.Frame payload)
                then [] else rest)).1).
Proof.
  intros Hconn.
  assert (forall input,
             Observe.read_deadlines (HTTPServer.Reader c now input).1
             = map (fun t => t + HTTPServer.pongWait)
                   (now :: Observe.pongs HTTPServer.maxMessageSize input)) as H.
  { intros l. rewrite (Reader_unfold _ _ Hconn). cbn [fst].
    unfold Observe.read_deadlines.
    rewrite (omap_app _ [_; _; _]), omap_app.
    pose proof (Reader_loop_deadlines c conn HTTPServer.maxMessageSize l) as Hl.
    unfold Observe.read_deadlines in Hl. rewrite Hl.
    destruct (existsb _ _); cbn; by rewrite app_nil_r. }
  split; [apply H|].
  intros payload rest ->. rewrite !H. cbn [Observe.pongs].
  by destruct (HTTPServer.read_fails _ _).
Qed.

Lemma Reader_read_deadlines_witness :
  Observe.read_deadlines
    (HTTPServer.Reader Run.client2 1000 (HTTPServer.inbound Run.session3)).1
  = [60000001000; 60000002000].
Proof.
  destruct (Reader_read_deadlines Run.client2 Run.conn2 1000
              (HTTPServer.inbound Run.session3) eq_refl) as [H _].
  rewrite H. vm_compute. reflexivity.
Defined.

(** ** More on the outbound pump *)

Section ChanFacts.

Context {A : Type}.

Lemma chan_send_Some (ch ch' : Chan A) v :
  chan_send ch v = Some ch' ->
  chan_buf ch' = chan_buf ch ++ [v] /\ chan_cap ch' = chan_cap ch
  /\ chan_closed ch' = false /\ chan_closed ch = false
  /\ (length (chan_buf ch) < chan_cap ch)%nat.
Proof.
  unfold chan_send. destruct (chan_closed ch); [done|].
  destruct (decide _); [|done]. by intros [= <-].
Qed.

Lemma chan_recv_Some (ch ch' : Chan A) v :
  chan_recv ch = Some (Some v, ch') ->
  chan_buf ch = v :: chan_buf ch' /\ chan_cap ch' = chan_cap ch
  /\ chan_closed ch' = chan_closed ch.
Proof.
  unfold chan_recv. destruct (chan_buf ch) as [|w q].
  - by destruct (chan_closed ch).
  - by intros [= -> <-].
Qed.

End ChanFacts.

Section WriterMore.

Import HTTPServer.

Variables (c : Hub.Client) (conn : websocket.Conn).

Lemma text_frames_text t message tr :
  Observe.text_frames
    (SetWriteDeadline conn t :: WriteMessage conn websocket.TextMessage message :: tr)
  = message :: Observe.text_frames tr.
Proof. reflexivity. Qed.

Lemma text_frames_ping e t tr :
  Observe.text_frames
    (Log e :: SetWriteDeadline conn t
     :: WriteMessage conn websocket.PingMessage [] :: tr)
  = Observe.text_frames tr.
Proof. reflexivity. Qed.

(** The text frames written are the first messages that entered the
    queue. *)
Lemma Writer_loop_text_prefix send input :
  Observe.text_frames (Writer_loop c conn send input).1
  `prefix_of` chan_buf send ++ Observe.accepted send input.
Proof.
  revert send.
  induction input as [|[message| |now werr|now werr|] rest IH]; intros send;
    cbn [Writer_loop Observe.accepted].
  - apply prefix_nil.
  - destruct (chan_send send message) as [send'|] eqn:E; cbn [default id]; [|apply IH].
    apply chan_send_Some in E as (Hb & _).
    specialize (IH send'). rewrite Hb, <- app_assoc in IH. exact IH.
  - apply (IH (chan_close send)).
  - destruct (chan_recv send) as [[[message|] send']|] eqn:E; [| |apply IH].
    + apply chan_recv_Some in E as (Hb & _). rewrite Hb. cbn [app].
      unfold _write. destruct werr as [e|].
      * cbn. apply prefix_cons, prefix_nil.
      * rewrite emit_andThen. cbn [fst]. unfold Observe.text_frames.
        rewrite omap_app. cbn [omap app]. apply prefix_cons. apply IH.
    + unfold _write.
      destruct werr; cbn -[websocket.FormatCloseMessage]; apply prefix_nil.
  - unfold _write. destruct werr as [e|].
    + cbn. apply prefix_nil.
    + rewrite emit_andThen. cbn [fst]. unfold Observe.text_frames.
      rewrite omap_app. cbn [omap app]. apply IH.
  - apply prefix_nil.
Qed.

(** While the loop waits in [select], every message that entered the
    queue was written or is still queued. *)
Lemma Writer_loop_conservation send input tr :
  Writer_loop c conn send input = (tr, Blocked) ->
  chan_buf send ++ Observe.accepted send input
  = Observe.text_frames tr ++ chan_buf (send_after send input).
Proof.
  revert send tr.
  induction input as [|[message| |now werr|now werr|] rest IH]; intros send tr;
    cbn [Writer_loop Observe.accepted send_after].
  - intros [= <-]. by rewrite app_nil_r.
  - destruct (chan_send send message) as [send'|] eqn:E; cbn [default id];
      [|apply IH].
    apply chan_send_Some in E as (Hb & _). intros H.
    rewrite <- (IH _ _ H), Hb, <- app_assoc. done.
  - apply (IH (chan_close send)).
  - destruct (chan_recv send) as [[[message|] send']|] eqn:E; [| |apply IH].
    + apply chan_recv_Some in E as (Hb & _). rewrite Hb.
      unfold _write. destruct werr as [e|]; [done|].
      rewrite emit_andThen.
      destruct (Writer_loop c conn send' rest) as [tr' st] eqn:El.
      cbn [fst snd]. intros [= <- ->].
      cbn [app]. rewrite text_frames_text. cbn [app].
      f_equal. apply (IH _ _ El).
    + unfold _write. done.
  - unfold _write. destruct werr as [e|]; [done|].
    rewrite emit_andThen.
    destruct (Writer_loop c conn send rest) as [tr' st] eqn:El.
    cbn [fst snd]. intros [= <- ->].
    cbn [app]. unfold logf. rewrite text_frames_ping.
    apply (IH _ _ El).
  - done.
Qed.

(** What entered the queue was sent by a producer, in that order. *)
Lemma accepted_sublist send input :
  Observe.accepted send input `sublist_of` Observe.produced input.
Proof.
  revert send.
  induction input as [|[message| |now werr|now werr|] rest IH]; intros send;
    cbn [Observe.accepted Observe.produced omap]; [done|..|apply IH|apply IH].
  - destruct (chan_send send message); [apply sublist_skip, IH|].
    apply sublist_cons, IH.
  - apply IH.
  - destruct (chan_recv send) as [[[?|] ?]|]; apply IH.
Qed.

(** The queue never holds more than its capacity. *)
Lemma send_after_bounded send input :
  (length (chan_buf send) <= chan_cap send)%nat ->
  (length (chan_buf (send_after send input)) <= chan_cap send)%nat
  /\ chan_cap (send_after send input) = chan_cap send.
Proof.
  revert send.
  induction input as [|[message| |now werr|now werr|] rest IH]; intros send Hs;
    cbn [send_after]; [done|..|by apply IH|by apply IH].
  - destruct (chan_send send message) as [send'|] eqn:E; cbn [default id];
      [|by apply IH].
    apply chan_send_Some in E as (Hb & Hc & _ & _ & Hl).
    rewrite <- Hc. apply IH. rewrite Hb, Hc, length_app. cbn. lia.
  - apply (IH (chan_close send)). done.
  - destruct (chan_recv send) as [[[message|] send']|] eqn:E; [|by apply IH..].
    apply chan_recv_Some in E as (Hb & Hc & _).
    rewrite <- Hc. apply IH. rewrite Hb in Hs. cbn in Hs. lia.
Qed.

End WriterMore.

Section WriterTrace.

Import HTTPServer.

Variables (c : Hub.Client) (conn : websocket.Conn).

(** The loop never panics and closes nothing itself. *)
Lemma Writer_loop_no_close send input :
  (Writer_loop c conn send input).2 <> Panicked
  /\ closed (Writer_loop c conn send input).1 = [].
Proof.
  revert send.
  induction input as [|[message| |now werr|now werr|] rest IH]; intros send;
    cbn [Writer_loop]; [done|apply IH|apply IH| | |done].
  - destruct (chan_recv send) as [[[message|] send']|]; [| |apply IH].
    + unfold _write. destruct werr as [e|]; [done|].
      rewrite emit_andThen. cbn [fst snd]. unfold closed.
      rewrite omap_app. destruct (IH send') as [? H]. unfold closed in H.
      by rewrite H.
    + unfold _write. by destruct werr.
  - unfold _write. destruct werr as [e|]; [done|].
    rewrite emit_andThen. cbn [fst snd]. unfold closed.
    rewrite omap_app. destruct (IH send) as [? H]. unfold closed in H.
    by rewrite H.
Qed.

(** Deadlines and writes come in pairs. *)
Lemma Writer_loop_paired send input :
  Observe.paired (Writer_loop c conn send input).1 = true.
Proof.
  revert send.
  induction input as [|[message| |now werr|now werr|] rest IH]; intros send;
    cbn [Writer_loop]; [done|apply IH|apply IH| | |done].
  - destruct (chan_recv send) as [[[message|] send']|]; [| |apply IH].
    + unfold _write. destruct werr as [e|].
      * cbn. by rewrite bool_decide_eq_true_2.
      * rewrite emit_andThen. cbn [fst app Observe.paired].
        by rewrite bool_decide_eq_true_2, IH.
    + unfold _write, logf.
      destruct werr; cbn -[websocket.FormatCloseMessage];
        by rewrite bool_decide_eq_true_2.
  - unfold _write, logf. destruct werr as [e|].
    + cbn. by rewrite bool_decide_eq_true_2.
    + rewrite emit_andThen. cbn [fst app Observe.paired].
      by rewrite bool_decide_eq_true_2, IH.
Qed.

(** Each write deadline is [writeWait] after the time of a wake-up, in the
    order of the wake-ups. *)
Lemma Writer_loop_deadlines send input :
  Observe.write_deadlines (Writer_loop c conn send input).1
  `sublist_of` map (fun now => now + writeWait) (Observe.wake_times input).
Proof.
  revert send.
  induction input as [|[message| |now werr|now werr|] rest IH]; intros send;
    cbn [Writer_loop Observe.wake_times omap map]; [done|apply IH|apply IH| | |].
  - destruct (chan_recv send) as [[[message|] send']|].
    + unfold _write. destruct werr as [e|].
      * cbn. apply sublist_skip, sublist_nil_l.
      * rewrite emit_andThen. cbn [fst app]. unfold Observe.write_deadlines.
        cbn [omap]. fold (Observe.write_deadlines (Writer_loop c conn send' rest).1).
        change (omap ?f (Writer_loop c conn send' rest).1)
          with (Observe.write_deadlines (Writer_loop c conn send' rest).1).
        apply sublist_skip, IH.
    + unfold _write, logf.
      destruct werr; cbn -[websocket.FormatCloseMessage];
        apply sublist_skip, sublist_nil_l.
    + cbn [fmap list_fmap]. apply sublist_cons, IH.
  - unfold _write, logf. destruct werr as [e|].
    + cbn. apply sublist_skip, sublist_nil_l.
    + rewrite emit_andThen. cbn [fst app].
      change (Observe.write_deadlines (?a :: ?b :: ?d :: ?tr))
        with (Observe.write_deadlines (b :: d :: tr)).
      apply sublist_skip, IH.
  - apply sublist_nil_l.
Qed.

End WriterTrace.

Section WriterFrames.

Import HTTPServer.

Variables (c : Hub.Client) (conn : websocket.Conn).

Lemma frames_written_write t mt data tr :
  frames_written (SetWriteDeadline conn t :: WriteMessage conn mt data :: tr)
  = (mt, data) :: frames_written tr.
Proof. reflexivity. Qed.

Lemma frames_written_log e tr : frames_written (Log e :: tr) = frames_written tr.
Proof. reflexivity. Qed.

(** The frames of the loop: text frames and pings, then at most one close
    frame, which ends the loop; and no close frame unless the queue was
    closed. *)
Lemma Writer_loop_frames send input :
  exists body tail,
    frames_written (Writer_loop c conn send input).1 = body ++ tail
    /\ Forall (fun f => f.1 = websocket.TextMessage
                        \/ f = (websocket.PingMessage, [])) body
    /\ (tail = []
        \/ tail = [(websocket.CloseMessage,
                    websocket.FormatCloseMessage websocket.CloseNormalClosure
                      "Disconnected")]
           /\ (Writer_loop c conn send input).2 = Returned)
    /\ (chan_closed send = false -> Observe.closes_queue input = false ->
        tail = []).
Proof.
  revert send.
  induction input as [|[message| |now werr|now werr|] rest IH]; intros send;
    cbn [Writer_loop Observe.closes_queue existsb orb].
  - exists [], []. split_and!; [done|constructor|by left|done].
  - destruct (IH (default send (chan_send send message)))
      as (body & tail & H1 & H2 & H3 & H4).
    exists body, tail. split_and!; [done..|].
    intros Hc Hq. apply H4; [|done].
    destruct (chan_send send message) as [send'|] eqn:E; [|done].
    by apply chan_send_Some in E as (_ & _ & ? & _).
  - destruct (IH (chan_close send)) as (body & tail & H1 & H2 & H3 & _).
    exists body, tail. split_and!; done.
  - destruct (chan_recv send) as [[[message|] send']|] eqn:E.
    + apply chan_recv_Some in E as (_ & _ & Hcl).
      unfold _write. destruct werr as [e|].
      * exists [(websocket.TextMessage, message)], [].
        split_and!; [done| |by left|done].
        constructor; [by left|constructor].
      * destruct (IH send') as (body & tail & H1 & H2 & H3 & H4).
        exists ((websocket.TextMessage, message) :: body), tail.
        rewrite emit_andThen. cbn [fst snd app].
        rewrite frames_written_write, H1.
        split_and!; [done| |done|].
        -- constructor; [by left|done].
        -- intros Hc Hq. apply H4; [congruence|done].
    + apply chan_recv_closed in E as (Hcl & _).
      exists [], [(websocket.CloseMessage,
                   websocket.FormatCloseMessage websocket.CloseNormalClosure
                     "Disconnected")].
      unfold _write, logf. split_and!.
      * by destruct werr.
      * constructor.
      * right. by destruct werr.
      * congruence.
    + destruct (IH send) as (body & tail & H1 & H2 & H3 & H4).
      by exists body, tail.
  - unfold _write, logf. destruct werr as [e|].
    + exists [(websocket.PingMessage, [])], [].
      split_and!; [done| |by left|done].
      constructor; [by right|constructor].
    + destruct (IH send) as (body & tail & H1 & H2 & H3 & H4).
      exists ((websocket.PingMessage, []) :: body), tail.
      rewrite emit_andThen. cbn [fst snd app].
      rewrite frames_written_log, frames_written_write, H1.
      split_and!; [done| |done..].
      constructor; [by right|done].
  - exists [], []. split_and!; [done|constructor|by left|done].
Qed.

Hypothesis Hconn : Hub.Conn c = Hub.WebSocket conn.

(** [Writer] in full: the ticker, the loop, and the deferred stop and
    close when the loop is left. *)
Lemma Writer_unfold input :
  Writer c input
  = (NewTicker pingPeriod :: (Writer_loop c conn (Hub.Send c) input).1
     ++ (if decide ((Writer_loop c conn (Hub.Send c) input).2 = Returned)
         then [TickerStop; Close conn] else []),
     (Writer_loop c conn (Hub.Send c) input).2).
Proof.
  unfold Writer. rewrite Hconn, emit_andThen.
  destruct (Writer_loop_no_close c conn (Hub.Send c) input) as [Hp _].
  destruct (Writer_loop c conn (Hub.Send c) input) as [tr [| |]];
    unfold andThen; cbn; by rewrite ?app_nil_r.
Qed.

End WriterFrames.

Section WriterObserved.

Import HTTPServer.

Variables (c : Hub.Client) (conn : websocket.Conn).
Hypothesis Hconn : Hub.Conn c = Hub.WebSocket conn.

Lemma Writer_text_frames input :
  Observe.text_frames (Writer c input).1
  = Observe.text_frames (Writer_loop c conn (Hub.Send c) input).1.
Proof.
  rewrite (Writer_unfold _ _ Hconn). cbn [fst]. unfold Observe.text_frames.
  change (NewTicker pingPeriod :: ?l) with ([NewTicker pingPeriod] ++ l).
  rewrite !omap_app. destruct (decide _); cbn; by rewrite app_nil_r.
Qed.

Lemma Writer_frames_written input :
  frames_written (Writer c input).1
  = frames_written (Writer_loop c conn (Hub.Send c) input).1.
Proof.
  rewrite (Writer_unfold _ _ Hconn). cbn [fst]. unfold frames_written.
  change (NewTicker pingPeriod :: ?l) with ([NewTicker pingPeriod] ++ l).
  rewrite !omap_app. destruct (decide _); cbn; by rewrite app_nil_r.
Qed.

Lemma Writer_write_deadlines input :
  Observe.write_deadlines (Writer c input).1
  = Observe.write_deadlines (Writer_loop c conn (Hub.Send c) input).1.
Proof.
  rewrite (Writer_unfold _ _ Hconn). cbn [fst]. unfold Observe.write_deadlines.
  change (NewTicker pingPeriod :: ?l) with ([NewTicker pingPeriod] ++ l).
  rewrite !omap_app. destruct (decide _); cbn; by rewrite app_nil_r.
Qed.

Lemma Writer_conservation input :
  (Writer c input).2 = Blocked ->
  chan_buf (Hub.Send c) ++ Observe.accepted (Hub.Send c) input
  = Observe.text_frames (Writer c input).1
    ++ chan_buf (send_after (Hub.Send c) input).
Proof.
  rewrite Writer_text_frames.
  rewrite (Writer_unfold _ _ Hconn). cbn [snd]. intros Hst.
  apply (Writer_loop_conservation c conn).
  destruct (Writer_loop c conn (Hub.Send c) input) as [tr st].
  cbn [snd fst] in *. by subst.
Qed.

Lemma paired_app a b :
  Observe.paired a = true -> Observe.paired (a ++ b) = Observe.paired b.
Proof.
  induction a as [a IH] using length_ind.
  destruct a as [|e a]; [done|].
  destruct e; cbn [app Observe.paired]; try (intros H; apply IH; [cbn; lia|done]);
    [|done].
  destruct a as [|e' a]; [done|].
  destruct e'; try done. cbn [app].
  intros [-> H]%andb_true_iff. cbn [andb]. apply IH; [cbn; lia|done].
Qed.

Lemma Writer_paired input : Observe.paired (Writer c input).1 = true.
Proof.
  rewrite (Writer_unfold _ _ Hconn). cbn [fst Observe.paired].
  rewrite paired_app by apply Writer_loop_paired.
  by destruct (decide _).
Qed.

End WriterObserved.

(** X6.  The outbound pump writes the queued messages in the order in which
    they entered the queue, each once and without gaps: the text frames it
    writes are the first messages of the queue as the producers filled it,
    and those are messages producers sent, in their order. *)
Theorem Writer_writes_in_queue_order
    (c : Hub.Client) (input : list HTTPServer.Wake) :
  Observe.text_frames (HTTPServer.Writer c input).1
  `prefix_of` chan_buf (Hub.Send c) ++ Observe.accepted (Hub.Send c) input
  /\ Observe.accepted (Hub.Send c) input `sublist_of` Observe.produced input.
Proof.
  split; [|apply accepted_sublist].
  destruct (Hub.Conn c) as [conn|id] eqn:Hconn.
  - rewrite (Writer_text_frames _ _ Hconn). apply Writer_loop_text_prefix.
  - unfold HTTPServer.Writer. rewrite Hconn. apply prefix_nil.
Qed.

(** X7.  While the outbound pump is running (it waits in its [select]), no
    message is lost: the messages that entered the queue are exactly those
    already written followed by those still queued. *)
Theorem Writer_loses_no_message
    (c : Hub.Client) (conn : websocket.Conn) (input : list HTTPServer.Wake) :
  Hub.Conn c = Hub.WebSocket conn ->
  (HTTPServer.Writer c input).2 = HTTPServer.Blocked ->
  chan_buf (Hub.Send c) ++ Observe.accepted (Hub.Send c) input
  = Observe.text_frames (HTTPServer.Writer c input).1
    ++ chan_buf (HTTPServer.send_after (Hub.Send c) input).
Proof.
  intros Hconn. by apply (Writer_conservation c conn).
Qed.

Lemma Writer_loses_no_message_witness :
  let input := [HTTPServer.Produce (bytes_of_string "A");
                HTTPServer.Produce (bytes_of_string "B");
                HTTPServer.TakeSend 10 None;
                HTTPServer.Produce (bytes_of_string "C")] in
  Observe.text_frames (HTTPServer.Writer Run.client2 input).1
  ++ chan_buf (HTTPServer.send_after (Hub.Send Run.client2) input)
  = [bytes_of_string "A"; bytes_of_string "B"; bytes_of_string "C"].
Proof.
  intros input.
  rewrite <- (Writer_loses_no_message Run.client2 Run.conn2 input eq_refl).
  - vm_compute. reflexivity.
  - vm_compute. reflexivity.
Defined.

(** X8.  Every frame the outbound pump writes is written under a write
    deadline: in its trace a write deadline is always followed at once by
    one write on the same connection and no write comes without one; each
    deadline is [writeWait] (5 s) after the time of the wake-up that
    writes. *)
Theorem Writer_writes_under_deadline
    (c : Hub.Client) (input : list HTTPServer.Wake) :
  Observe.paired (HTTPServer.Writer c input).1 = true
  /\ Observe.write_deadlines (HTTPServer.Writer c input).1
     `sublist_of` map (fun now => now + HTTPServer.writeWait)
                      (Observe.wake_times input).
Proof.
  destruct (Hub.Conn c) as [conn|id] eqn:Hconn.
  - split; [by apply (Writer_paired c conn)|].
    rewrite (Writer_write_deadlines _ _ Hconn). apply Writer_loop_deadlines.
  - unfold HTTPServer.Writer. rewrite Hconn. split; [done|].
    apply sublist_nil_l.
Qed.

(** X9.  The outbound pump, on a websocket peer, never panics; it creates
    its ticker with period [pingPeriod] first, and when it exits, on every
    path, it stops the ticker and then closes the connection, once, as its
    last two actions; while it runs it closes nothing. *)
Theorem Writer_stops_ticker_and_closes_at_exit
    (c : Hub.Client) (conn : websocket.Conn) (input : list HTTPServer.Wake) :
  Hub.Conn c = Hub.WebSocket conn ->
  let o := HTTPServer.Writer c input in
  o.2 <> HTTPServer.Panicked
  /\ (exists body,
        o.1 = HTTPServer.NewTicker HTTPServer.pingPeriod :: body
              ++ (if decide (o.2 = HTTPServer.Returned)
                  then [HTTPServer.TickerStop; HTTPServer.Close conn] else [])
        /\ HTTPServer.closed body = [])
  /\ HTTPServer.closed o.1
     = (if decide (o.2 = HTTPServer.Returned) then [conn] else []).
Proof.
  intros Hconn o. subst o. rewrite (Writer_unfold _ _ Hconn). cbn [fst snd].
  destruct (Writer_loop_no_close c conn (Hub.Send c) input) as [Hp Hc].
  split_and!; [done|eauto|].
  unfold HTTPServer.closed in *.
  change (HTTPServer.NewTicker HTTPServer.pingPeriod :: ?l)
    with ([HTTPServer.NewTicker HTTPServer.pingPeriod] ++ l).
  rewrite !omap_app, Hc. by destruct (decide _).
Qed.

Lemma Writer_stops_ticker_and_closes_at_exit_witness :
  HTTPServer.closed
    (HTTPServer.Writer Run.client2
       [HTTPServer.TakeTick 5 None; HTTPServer.TakeQuit]).1
  = [Run.conn2].
Proof.
  destruct (Writer_stops_ticker_and_closes_at_exit Run.client2 Run.conn2
              [HTTPServer.TakeTick 5 None; HTTPServer.TakeQuit] eq_refl)
    as (_ & _ & H).
  rewrite H. reflexivity.
Defined.

(** X10.  A failed write ends the outbound pump at once, with no retry: when
    the write of a ping or of a queued message returns an error, the pump
    stops the ticker, closes the connection and returns, and nothing that
    comes later is acted on; the message of the failed write has left the
    queue. *)
Theorem Writer_stops_at_failed_write
    (c : Hub.Client) (conn : websocket.Conn)
    (pre rest : list HTTPServer.Wake) (tr : list HTTPServer.Event)
    (now : Time) (e : error) :
  Hub.Conn c = Hub.WebSocket conn ->
  HTTPServer.Writer_loop c conn (Hub.Send c) pre = (tr, HTTPServer.Blocked) ->
  HTTPServer.Writer c (pre ++ HTTPServer.TakeTick now (Some e) :: rest)
  = (HTTPServer.NewTicker HTTPServer.pingPeriod :: tr
     ++ [HTTPServer.logf clog.Debug "Writer" "Client %s Ping!"
           [clog.AString (Hub.Name c)];
         HTTPServer.SetWriteDeadline conn (now + HTTPServer.writeWait);
         HTTPServer.WriteMessage conn websocket.PingMessage [];
         HTTPServer.TickerStop; HTTPServer.Close conn],
     HTTPServer.Returned)
  /\ (forall message queue,
        chan_buf (HTTPServer.send_after (Hub.Send c) pre) = message :: queue ->
        HTTPServer.Writer c (pre ++ HTTPServer.TakeSend now (Some e) :: rest)
        = (HTTPServer.NewTicker HTTPServer.pingPeriod :: tr
           ++ [HTTPServer.SetWriteDeadline conn (now + HTTPServer.writeWait);
               HTTPServer.WriteMessage conn websocket.TextMessage message;
               HTTPServer.TickerStop; HTTPServer.Close conn],
           HTTPServer.Returned)
        /\ chan_buf
             (HTTPServer.send_after (Hub.Send c)
                (pre ++ [HTTPServer.TakeSend now (Some e)])) = queue).
Proof.
  intros Hconn Hpre. split.
  - unfold HTTPServer.Writer. rewrite Hconn, emit_andThen.
    rewrite (Writer_loop_app _ _ _ _ _ _ Hpre).
    cbn. by rewrite <- app_assoc.
  - intros message queue Hq.
    assert (chan_recv (HTTPServer.send_after (Hub.Send c) pre)
            = Some (Some message,
                    mkChan (chan_cap (HTTPServer.send_after (Hub.Send c) pre))
                      queue
                      (chan_closed (HTTPServer.send_after (Hub.Send c) pre))))
      as Hrecv by (unfold chan_recv; by rewrite Hq).
    split.
    + unfold HTTPServer.Writer. rewrite Hconn, emit_andThen.
      rewrite (Writer_loop_app _ _ _ _ _ _ Hpre).
      cbn [HTTPServer.Writer_loop]. rewrite Hrecv.
      cbn. by rewrite <- app_assoc.
    + clear Hpre. revert Hq Hrecv. generalize (Hub.Send c) as send.
      induction pre as [|[m| |t w|t w|] pre' IH]; intros send Hq Hrecv;
        cbn [app HTTPServer.send_after] in *.
      * by rewrite Hrecv.
      * by apply IH.
      * by apply IH.
      * destruct (chan_recv send) as [[[?|] ?]|]; by apply IH.
      * by apply IH.
      * by apply IH.
Qed.

Lemma Writer_stops_at_failed_write_witness :
  HTTPServer.frames_written
    (HTTPServer.Writer Run.client2
       ([HTTPServer.Produce (bytes_of_string "A")]
        ++ HTTPServer.TakeTick 7 (Some "broken pipe")
           :: [HTTPServer.TakeSend 8 None])).1
  = [(websocket.PingMessage, [])].
Proof.
  destruct (Writer_stops_at_failed_write Run.client2 Run.conn2
              [HTTPServer.Produce (bytes_of_string "A")]
              [HTTPServer.TakeSend 8 None] [] 7 "broken pipe" eq_refl)
    as [H _].
  - reflexivity.
  - rewrite H. reflexivity.
Defined.

(** X11.  The outbound pump writes only three kinds of frame: text frames,
    pings with an empty payload, and the close frame for a normal closure
    (code 1000, reason ["Disconnected"]).  A close frame is written at most
    once, it is the last frame, and the pump then returns; none is written
    when the queue starts open and no producer closes it. *)
Theorem Writer_frame_kinds (c : Hub.Client) (input : list HTTPServer.Wake) :
  Forall Observe.frame_kind (HTTPServer.frames_written (HTTPServer.Writer c input).1)
  /\ (exists body tail,
         HTTPServer.frames_written (HTTPServer.Writer c input).1 = body ++ tail
         /\ Forall (fun f => f.1 <> websocket.CloseMessage) body
         /\ (tail = []
             \/ tail = [(websocket.CloseMessage,
                         x03 :: xe8 :: bytes_of_string "Disconnected")]
                /\ (HTTPServer.Writer c input).2 = HTTPServer.Returned))
  /\ (chan_closed (Hub.Send c) = false ->
      Observe.closes_queue input = false ->
      Forall (fun f => f.1 <> websocket.CloseMessage)
        (HTTPServer.frames_written (HTTPServer.Writer c input).1)).
Proof.
  destruct (Hub.Conn c) as [conn|id] eqn:Hconn.
  2: { unfold HTTPServer.Writer. rewrite Hconn. cbn.
       split_and!; [constructor| |by constructor].
       exists [], []. split_and!; [done|constructor|by left]. }
  rewrite (Writer_frames_written _ _ Hconn).
  destruct (Writer_loop_frames c conn (Hub.Send c) input)
    as (body & tail & H1 & H2 & H3 & H4).
  assert (Forall (fun f : Z * bytes => f.1 <> websocket.CloseMessage) body) as Hb.
  { eapply Forall_impl; [exact H2|]. intros [mt d] [H | H]; cbn in *.
    - by rewrite H.
    - by injection H as -> _. }
  rewrite H1. split_and!.
  - apply Forall_app. split.
    + eapply Forall_impl; [exact H2|]. intros f [H | H]; [by left | right; by left].
    + destruct H3 as [-> | [-> _]]; [constructor|].
      constructor; [|constructor]. right. by right.
  - exists body, tail. split_and!; [done..|].
    destruct H3 as [-> | [-> Hst]]; [by left | right].
    split; [done|].
    rewrite (Writer_unfold _ _ Hconn). done.
  - intros Hc Hq. rewrite (H4 Hc Hq), app_nil_r. done.
Qed.

(** X12.  The outbound queue of a record built by [wsConnect] never holds
    more than 256 messages, whatever producers and pump do; so while the
    pump runs, the producers are at most 256 messages ahead of what it has
    written. *)
Theorem Writer_queue_bounded
    (m : HTTPServer.Manager) (h : Hub.State) (r : HTTPServer.Request)
    (cta : Hub.CallToActionFunc) (s : HTTPServer.Session) (client : Hub.Client)
    (input : list HTTPServer.Wake) :
  client ∈ HTTPServer.registered (HTTPServer.wsConnect m h r cta s).1 ->
  (length (chan_buf (HTTPServer.send_after (Hub.Send client) input)) <= 256)%nat
  /\ ((HTTPServer.Writer client input).2 = HTTPServer.Blocked ->
      (length (Observe.accepted (Hub.Send client) input)
       <= length (Observe.text_frames (HTTPServer.Writer client input).1) + 256)%nat).
Proof.
  intros (httpconn & name & rest & _ & _ & _ & ->)%wsConnect_registered_inv.
  set (client := HTTPServer.new_client m httpconn cta name (HTTPServer.user_agent r)).
  destruct (send_after_bounded (Hub.Send client) input) as [Hb _];
    [cbn; lia|].
  split; [exact Hb|].
  intros Hst.
  pose proof (Writer_conservation client httpconn eq_refl input Hst) as H.
  apply (f_equal length) in H. rewrite !length_app in H.
  change (chan_buf (Hub.Send client)) with (@nil bytes) in H.
  change (chan_cap (Hub.Send client)) with 256%nat in Hb.
  cbn [length] in H. lia.
Qed.

Lemma Writer_queue_bounded_witness :
  (length
     (chan_buf
        (HTTPServer.send_after (Hub.Send Run.client2)
           (replicate 300 (HTTPServer.Produce (bytes_of_string "x")))))
   <= 256)%nat.
Proof.
  destruct (Writer_queue_bounded
              Run.manager Run.hub_empty Run.request_peer1 Run.handler
              Run.session2 Run.client2
              (replicate 300 (HTTPServer.Produce (bytes_of_string "x"))))
    as [H _].
  - vm_compute. apply list_elem_of_here.
  - exact H.
Defined.

(** ** More on registration *)

Section RegistrationMore.

Import HTTPServer.

Variables (m : Manager) (h : Hub.State) (r : Request)
          (cta : Hub.CallToActionFunc) (s : Session).

(** What the trace of a registered connection shows to each observer. *)
Lemma wsConnect_registers_observed httpconn name rest :
  Upgrade s = inl httpconn ->
  Header r !! "Sec-Websocket-Key" = Some (name :: rest) ->
  Hub.UserExists h name Hub.ClientUser = false ->
  let client := new_client m httpconn cta name (user_agent r) in
  let o := wsConnect m h r cta s in
  let fails := existsb (read_fails maxMessageSize) (inbound s) in
  o.2 = (if fails then Returned else Blocked)
  /\ registered o.1 = [client]
  /\ writers_started o.1 = [client]
  /\ unregistered o.1 = (if fails then [client] else [])
  /\ closed o.1 = (if fails then [httpconn] else [])
  /\ frames_written o.1 = []
  /\ dispatched o.1
     = map (fun message => (client, normalize message))
           (received maxMessageSize (inbound s)).
Proof.
  intros Hu Hk He client o fails. subst o.
  rewrite (wsConnect_registers_trace _ _ _ _ _ _ _ _ Hu Hk He).
  fold client fails. cbn [fst snd].
  destruct (Reader_loop_hub_silent client httpconn maxMessageSize (inbound s))
    as (Hr & Hun & Hw).
  destruct (Reader_loop_quiet client httpconn maxMessageSize (inbound s))
    as (Hc & Hf).
  pose proof (Reader_loop_dispatched client httpconn maxMessageSize (inbound s))
    as Hd.
  unfold registered, writers_started, unregistered, closed, frames_written,
    dispatched in *.
  rewrite !(omap_app _ [_; _; _; _; _]), !omap_app, Hr, Hun, Hw, Hc, Hf, Hd.
  destruct fails; cbn; by rewrite ?app_nil_r.
Qed.

End RegistrationMore.



(** X14.  Every handler call [wsConnect] starts is for the record it
    registered: that record is named by the first ["Sec-Websocket-Key"]
    value, holds the upgraded connection and its remote address, and calls
    the handler [wsConnect] was given; the payload is at most 512 bytes
    long. *)
Theorem wsConnect_dispatches_for_its_record
    (m : HTTPServer.Manager) (h : Hub.State) (r : HTTPServer.Request)
    (cta : Hub.CallToActionFunc) (s : HTTPServer.Session)
    (client : Hub.Client) (payload : bytes) :
  (client, payload) ∈ HTTPServer.dispatched (HTTPServer.wsConnect m h r cta s).1 ->
  HTTPServer.registered (HTTPServer.wsConnect m h r cta s).1 = [client]
  /\ (exists name rest httpconn,
         HTTPServer.Header r !! "Sec-Websocket-Key" = Some (name :: rest)
         /\ HTTPServer.Upgrade s = inl httpconn
         /\ Hub.Name client = name
         /\ Hub.Conn client = Hub.WebSocket httpconn
         /\ Hub.Addr client = websocket.RemoteAddr httpconn)
  /\ Hub.CallToAction client = cta
  /\ Hub.Hub client = HTTPServer.Hub m
  /\ Z.of_nat (length payload) <= HTTPServer.maxMessageSize.
Proof.
  destruct (HTTPServer.Upgrade s) as [httpconn|err] eqn:Hu.
  2: { unfold HTTPServer.wsConnect. rewrite Hu. cbn. by intros ?%elem_of_nil. }
  destruct (HTTPServer.Header r !! "Sec-Websocket-Key") as [[|name rest]|] eqn:Hk.
  1,3: unfold HTTPServer.wsConnect; rewrite Hu, Hk; cbn; by intros ?%elem_of_nil.
  destruct (Hub.UserExists h name Hub.ClientUser) eqn:He.
  { rewrite (wsConnect_duplicate _ _ _ _ _ _ _ _ Hu Hk He). cbn.
    by intros ?%elem_of_nil. }
  destruct (wsConnect_registers_observed m h r cta s _ _ _ Hu Hk He)
    as (_ & Hr & _ & _ & _ & _ & Hd).
  rewrite Hd, Hr.
  intros (message & [= -> ->] & Hin)%list_elem_of_fmap.
  split_and!; [done| |done..|].
  - exists name, rest, httpconn. done.
  - pose proof (normalize_length message).
    apply received_bounded in Hin. lia.
Qed.

Lemma wsConnect_dispatches_for_its_record_witness :
  Hub.Name Run.client2 = "peer1" /\ Hub.CallToAction Run.client2 = Run.handler.
Proof.
  destruct (wsConnect_dispatches_for_its_record
              Run.manager Run.hub_empty Run.request_peer1 Run.handler
              Run.session2 Run.client2 (bytes_of_string "hello world"))
    as (_ & (name & rest & conn & Hk & _ & Hn & _) & Hc & _).
  - vm_compute. apply list_elem_of_here.
  - split; [|exact Hc]. rewrite Hn.
    vm_compute in Hk. by injection Hk as <- _.
Defined.

(** ** More on [Load] *)

(** X15.  When the settings file loads, the error of [cfg.MapTo] is never
    returned: [Load] returns what [MapTo] wrote into the configuration, and
    as error only what [cfg.GetSection("KnownBrothers")] returns.  When the
    section exists the error is [nil] and its keys become [Servers]; when it
    does not, the configuration is returned with that error.  Nothing is
    logged. *)
Theorem Load_returns_section_error_only
    (w : Config.Process) (cfg : ini.File Config.Data)
    (mapped : Config.Data) (map_err : option error) :
  Config.CommandLine w !! "httpaddr" = None ->
  Config.CommandLine w !! "tcpaddr" = None ->
  is_Some (flag.Parse
             (<["tcpaddr" := "localhost:8081"]>
                (<["httpaddr" := "localhost:8080"]> (Config.CommandLine w)))
             (Config.Args w)) ->
  Config.ini_Load w (Config.GOPATH w +:+ "/etc/server.ini") = inl cfg ->
  ini.MapTo cfg (Config.set_TCPaddr "localhost:8081"
                   (Config.set_HTTPaddr "localhost:8080" Config.defaults))
  = (mapped, map_err) ->
  Config.Load w
  = ([], match ini.GetSection cfg "KnownBrothers" with
         | inl sec1 =>
             Config.Returns
               (Some (Config.set_Servers (ini.KeysHash sec1) mapped)) None
         | inr err => Config.Returns (Some mapped) (Some err)
         end).
Proof.
  intros H1 H2 [fs Hparse] Hini Hmap. unfold Config.Load.
  rewrite (Load_flags_fresh _ _ H1 H2), Hparse, Hini, Hmap.
  by destruct (ini.GetSection cfg "KnownBrothers").
Qed.

Lemma Load_returns_section_error_only_witness :
  exists conf,
    Config.Load Sample.process = ([], Config.Returns (Some conf) None)
    /\ Config.Servers (Config.KnownBrothers_ conf) = {[ "srv2" := "10.0.0.2:8081" ]}
    /\ Config.HTTPaddr (Config.ServersAddresses_ conf) = "0.0.0.0:80".
Proof.
  eexists. split.
  - rewrite (Load_returns_section_error_only Sample.process Sample.settings
               (Config.set_HTTPaddr "0.0.0.0:80"
                  (Config.set_TCPaddr "localhost:8081"
                     (Config.set_HTTPaddr "localhost:8080" Config.defaults)))
               (Some "strconv.ParseInt: parsing x: invalid syntax")).
    + reflexivity.
    + reflexivity.
    + reflexivity.
    + vm_compute. eexists. reflexivity.
    + reflexivity.
    + reflexivity.
  - split; reflexivity.
Defined.


Lemma classify_equals value :
  flag.classify ("-httpaddr=" +:+ value) = flag.Flag "httpaddr" (Some value)
  /\ flag.classify ("--tcpaddr=" +:+ value) = flag.Flag "tcpaddr" (Some value).
Proof. split; vm_compute; reflexivity. Qed.

Lemma classify_bare :
  flag.classify "-httpaddr" = flag.Flag "httpaddr" None
  /\ flag.classify "-tcpaddr" = flag.Flag "tcpaddr" None.
Proof. split; vm_compute; reflexivity. Qed.

(** X17.  Giving [-httpaddr] or [-tcpaddr] on the command line, in any of
    the forms [-name=value], [--name=value] or [-name value] and with any
    value, changes nothing in what [Load] does: the call equals the call
    with no arguments. *)
Theorem Load_accepts_and_ignores_address_flags
    (w : Config.Process) (value : string) :
  Config.Load (Config.with_Args w ["-httpaddr=" +:+ value])
  = Config.Load (Config.with_Args w [])
  /\ Config.Load (Config.with_Args w ["--tcpaddr=" +:+ value])
     = Config.Load (Config.with_Args w [])
  /\ Config.Load (Config.with_Args w ["-httpaddr"; value])
     = Config.Load (Config.with_Args w [])
  /\ Config.Load (Config.with_Args w ["-tcpaddr"; value; "-httpaddr=" +:+ value])
     = Config.Load (Config.with_Args w []).
Proof.
  unfold Config.Load.
  cbn [Config.with_Args Config.CommandLine Config.Args Config.GOPATH
       Config.ini_Load].
  destruct (Load_flags_defaults (Config.CommandLine w) Config.defaults)
    as [-> | ->]; [done|].
  unfold flag.Parse.
  split_and!;
    repeat (cbn [flag.parse_args];
            rewrite ?(proj1 (classify_equals _)), ?(proj2 (classify_equals _)),
              ?(proj1 classify_bare), ?(proj2 classify_bare);
            repeat (rewrite lookup_insert_eq
                    || rewrite lookup_insert_ne by done));
    done.
Qed.

(** ** [Start] *)

Lemma int64_small z :
  -9223372036854775808 <= z < 9223372036854775808 -> Startup.int64 z = z.
Proof.
  intros H. unfold Startup.int64.
  change (2 ^ 64) with 18446744073709551616.
  change (2 ^ 63) with 9223372036854775808.
  rewrite Z.mod_small by lia. lia.
Qed.

(** The product wraps around past the bound. *)
Example int64_wraps :
  Startup.int64 (9223372037 * time.Second) = -9223372036709551616.
Proof. reflexivity. Qed.

(** X18.  The upgrader [Start] installs accepts every origin, takes its
    buffer sizes from [conf], and its handshake timeout is
    [conf.HandshakeTimeout] seconds as long as that number of seconds fits
    an [int64] of nanoseconds (up to 9223372036 in absolute value); the
    receiver's own fields play no part. *)
Theorem Start_upgrader
    (m conf : HTTPServer.Manager) (cta : Hub.CallToActionFunc)
    (mux : gmap string Startup.Handler) (listen : option error) :
  let up := (Startup.Start m conf cta mux listen).1.1.1 in
  (forall r, Startup.CheckOrigin up r = true)
  /\ Startup.ReadBufferSize up = HTTPServer.ReadBufferSize conf
  /\ Startup.WriteBufferSize up = HTTPServer.WriteBufferSize conf
  /\ (-9223372036 <= HTTPServer.HandshakeTimeout conf <= 9223372036 ->
      Startup.HandshakeTimeout up
      = HTTPServer.HandshakeTimeout conf * time.Second)
  /\ (forall m', Startup.Start m' conf cta mux listen
                 = Startup.Start m conf cta mux listen).
Proof.
  intros up. subst up. unfold Startup.Start.
  destruct (Startup.http_HandleFunc mux "/test" _) as [mux1|];
    [destruct (Startup.http_HandleFunc mux1 "/status" _) as [mux2|];
     [destruct (Startup.http_HandleFunc mux2 "/ws" _) as [mux3|];
      [destruct listen|]|]|];
    cbn [fst Startup.CheckOrigin Startup.ReadBufferSize Startup.WriteBufferSize
         Startup.HandshakeTimeout];
    (split_and!; [done..| |done]);
    intros H; apply int64_small; unfold time.Second; lia.
Qed.

Lemma Start_upgrader_witness :
  Startup.HandshakeTimeout
    (Startup.Start Run.manager Run.manager Run.handler ∅ None).1.1.1
  = 5 * time.Second.
Proof.
  destruct (Start_upgrader Run.manager Run.manager Run.handler ∅ None)
    as (_ & _ & _ & H & _).
  rewrite H; [reflexivity|]. vm_compute. split; discriminate.
Defined.

(** X19.  [Start] panics exactly when one of the patterns ["/test"],
    ["/status"], ["/ws"] is already registered.  Otherwise it registers the
    three handlers, the websocket one with the handler it was given, leaves
    every other pattern as it was, and listens on [conf.Httpaddr]; it then
    serves, or, when [ListenAndServe] returns an error, logs it as fatal and
    the process exits with code 1. *)
Theorem Start_routes
    (m conf : HTTPServer.Manager) (cta : Hub.CallToActionFunc)
    (mux : gmap string Startup.Handler) (listen : option error) :
  let '(_, mux', tr, st) := Startup.Start m conf cta mux listen in
  (st = Startup.Panics <->
   is_Some (mux !! "/test") \/ is_Some (mux !! "/status") \/ is_Some (mux !! "/ws"))
  /\ (st <> Startup.Panics ->
      mux' = <["/ws" := Startup.wsConnect cta]>
               (<["/status" := Startup.statusPage]>
                  (<["/test" := Startup.testPage]> mux))
      /\ (forall pattern,
            pattern <> "/test" -> pattern <> "/status" -> pattern <> "/ws" ->
            mux' !! pattern = mux !! pattern)
      /\ tr = [Startup.HandleFunc "/test" Startup.testPage;
               Startup.HandleFunc "/status" Startup.statusPage;
               Startup.HandleFunc "/ws" (Startup.wsConnect cta);
               Startup.ListenAndServe (HTTPServer.Httpaddr conf)]
              ++ match listen with
                 | Some err => [Startup.LogFatal "HTTPServer: " err]
                 | None => []
                 end
      /\ st = match listen with
              | Some _ => Startup.Exits 1
              | None => Startup.Serving
              end).
Proof.
  unfold Startup.Start, Startup.http_HandleFunc.
  destruct (mux !! "/test") as [h1|] eqn:H1.
  { split; [split; [eauto|done]|done]. }
  rewrite lookup_insert_ne by done.
  destruct (mux !! "/status") as [h2|] eqn:H2.
  { split; [split; [eauto|done]|done]. }
  rewrite !lookup_insert_ne by done.
  destruct (mux !! "/ws") as [h3|] eqn:H3.
  { split; [split; [eauto|done]|done]. }
  assert (~ (is_Some (@None Startup.Handler) \/ is_Some (@None Startup.Handler)
             \/ is_Some (@None Startup.Handler))) as Hn
    by (intros [[? ?] | [[? ?] | [? ?]]]; done).
  destruct listen as [err|]; (split; [split; [done|by intros ?%Hn]|]);
    intros _; (split_and!; [done| |done..]);
    intros pattern ? ? ?; by rewrite !lookup_insert_ne.
Qed.

(** ** The two pumps of one record *)

Section OneHandle.

Import HTTPServer.

Variables (c : Hub.Client) (conn : websocket.Conn).

Lemma Reader_loop_touched limit input :
  Forall (eq conn) (Observe.touched (Reader_loop c conn limit input).1).
Proof.
  unfold Observe.touched.
  induction input as [|[payload|now app|err] rest IH]; cbn [Reader_loop].
  - constructor.
  - destruct (_ >? _); [constructor|]. rewrite emit_andThen. cbn [fst].
    rewrite omap_app. apply Forall_app. split; [constructor|done].
  - rewrite emit_andThen. cbn [fst]. rewrite omap_app.
    apply Forall_app. split; [|done]. repeat constructor.
  - constructor.
Qed.

Lemma Writer_loop_touched send input :
  Forall (eq conn) (Observe.touched (Writer_loop c conn send input).1).
Proof.
  unfold Observe.touched. revert send.
  induction input as [|[message| |now werr|now werr|] rest IH]; intros send;
    cbn [Writer_loop]; [constructor|apply IH|apply IH| | |constructor].
  - destruct (chan_recv send) as [[[message|] send']|]; [| |apply IH].
    + unfold _write. destruct werr as [e|]; [by repeat constructor|].
      rewrite emit_andThen. cbn [fst]. rewrite omap_app.
      apply Forall_app. split; [by repeat constructor|apply IH].
    + unfold _write, logf.
      destruct werr; cbn -[websocket.FormatCloseMessage]; by repeat constructor.
  - unfold _write, logf. destruct werr as [e|]; [by repeat constructor|].
    rewrite emit_andThen. cbn [fst]. rewrite omap_app.
    apply Forall_app. split; [by repeat constructor|apply IH].
Qed.

End OneHandle.

(** X20.  The pumps of a record [wsConnect] registered act on one
    connection only, the one the handshake upgraded: every setting, write
    and close in the trace of [wsConnect] (the inbound pump) and in the trace
    of [Writer] on that record is on that connection.  Each pump closes it
    once when it exits, so the handle is closed by both. *)
Theorem pumps_share_one_handle
    (m : HTTPServer.Manager) (h : Hub.State) (r : HTTPServer.Request)
    (cta : Hub.CallToActionFunc) (s : HTTPServer.Session) (client : Hub.Client)
    (input : list HTTPServer.Wake) :
  client ∈ HTTPServer.registered (HTTPServer.wsConnect m h r cta s).1 ->
  exists httpconn,
    HTTPServer.Upgrade s = inl httpconn
    /\ Forall (eq httpconn)
         (Observe.touched (HTTPServer.wsConnect m h r cta s).1)
    /\ Forall (eq httpconn) (Observe.touched (HTTPServer.Writer client input).1)
    /\ ((HTTPServer.wsConnect m h r cta s).2 = HTTPServer.Returned ->
        HTTPServer.closed (HTTPServer.wsConnect m h r cta s).1 = [httpconn])
    /\ ((HTTPServer.Writer client input).2 = HTTPServer.Returned ->
        HTTPServer.closed (HTTPServer.Writer client input).1 = [httpconn]).
Proof.
  intros (httpconn & name & rest & Hu & Hk & He & ->)%wsConnect_registered_inv.
  set (client := HTTPServer.new_client m httpconn cta name (HTTPServer.user_agent r)).
  exists httpconn. split; [done|].
  destruct (wsConnect_registers_observed m h r cta s _ _ _ Hu Hk He)
    as (Hst & _ & _ & _ & Hc & _).
  split_and!.
  - rewrite (wsConnect_registers_trace _ _ _ _ _ _ _ _ Hu Hk He). cbn [fst].
    unfold Observe.touched. rewrite (omap_app _ [_; _; _; _; _]), omap_app.
    repeat (apply Forall_app; split).
    + by repeat constructor.
    + apply Reader_loop_touched.
    + destruct (existsb _ _); by repeat constructor.
  - rewrite (Writer_unfold client httpconn eq_refl). cbn [fst].
    unfold Observe.touched.
    change (HTTPServer.NewTicker HTTPServer.pingPeriod :: ?l)
      with ([HTTPServer.NewTicker HTTPServer.pingPeriod] ++ l).
    rewrite !omap_app. repeat (apply Forall_app; split).
    + constructor.
    + apply Writer_loop_touched.
    + destruct (decide _); by repeat constructor.
  - rewrite Hst, Hc. by destruct (existsb _ _).
  - rewrite (Writer_unfold client httpconn eq_refl). cbn [fst snd].
    intros Hret. rewrite decide_True by done.
    destruct (Writer_loop_no_close client httpconn (Hub.Send client) input)
      as [_ Hcl].
    unfold HTTPServer.closed in *.
    change (HTTPServer.NewTicker HTTPServer.pingPeriod :: ?l)
      with ([HTTPServer.NewTicker HTTPServer.pingPeriod] ++ l).
    by rewrite !omap_app, Hcl.
Qed.

Lemma pumps_share_one_handle_witness :
  HTTPServer.closed
    (HTTPServer.wsConnect Run.manager Run.hub_empty Run.request_peer1
       Run.handler Run.session2).1
  = HTTPServer.closed (HTTPServer.Writer Run.client2 [HTTPServer.TakeQuit]).1.
Proof.
  destruct (pumps_share_one_handle
              Run.manager Run.hub_empty Run.request_peer1 Run.handler
              Run.session2 Run.client2 [HTTPServer.TakeQuit])
    as (conn & _ & _ & _ & H1 & H2).
  - vm_compute. apply list_elem_of_here.
  - rewrite H1, H2; reflexivity.
Defined.

(** X21.  The frames the inbound pump hands over unchanged are exactly those
    that hold no line break ["\r\n"] and have white space at neither end. *)
Theorem normalize_fixed_points (message : bytes) :
  HTTPServer.normalize message = message <->
  Bytes.Contains message HTTPServer.Newline = false
  /\ Bytes.starts_with_space message = false
  /\ Bytes.ends_with_space message = false.
Proof.
  split.
  - intros H.
    unfold HTTPServer.normalize in *.
    set (r := Bytes.Replace message HTTPServer.Newline HTTPServer.Space (-1)) in *.
    destruct (TrimSpace_split r) as (pre & suf & _ & _ & Hr & Hst & Hen).
    rewrite H in Hst, Hen. split_and!; [|done..].
    pose proof (Replace_no_Newline message) as Hc. fold r in Hc.
    rewrite Hr, H in Hc. apply Contains_app_r in Hc. by apply Contains_app_l in Hc.
  - intros (Hc & Hst & Hen). unfold HTTPServer.normalize.
    rewrite (Replace_id _ Hc). by apply TrimSpace_id.
Qed.
